(** * fbstream: a framebuffer served as an HTTP image stream

    A shallow embedding of [fbstream.py].  The program has two halves:

    - [ConfigHandler.check_args], which validates the merged configuration
      and fills in the geometry fields left at ['auto'] from the device's
      sysfs descriptors;
    - [StreamHandler], a Bottle application with one route whose callback
      maps the device and returns a generator of multipart chunks.

    Python values that change type at run time (a width that is the string
    ['320'] when given on the command line and the integer [320] when read
    from sysfs) are kept as a tagged union.  Effects (logging, file opens,
    the memory map, sleeping, response headers) are recorded in a trace that
    is threaded through a small state-and-exception monad, so that "reads
    the descriptor once" or "sets the header before the first chunk" are
    statements about that trace. *)

From Stdlib Require Import ZArith NArith Lia Ascii String List Bool.
From Stdlib.Strings Require Import Byte.
From Stdlib Require Import DecimalString DecimalNat.
From stdpp Require Import base list strings gmap.
Import ListNotations.

Local Open Scope string_scope.
Local Open Scope Z_scope.
Local Open Scope list_scope.

(** ** Python values *)

(** The attributes of the argument namespace hold either a [str] or an
    [int]. *)
Inductive pyval : Type :=
| VStr (s : string)
| VInt (z : Z).

(** [a == b] on these values: a [str] never equals an [int]. *)
Definition pyval_eqb (a b : pyval) : bool :=
  match a, b with
  | VStr s, VStr t => String.eqb s t
  | VInt x, VInt y => Z.eqb x y
  | _, _ => false
  end.

Definition AUTO : pyval := VStr "auto".

Definition is_auto (v : pyval) : bool := pyval_eqb v AUTO.

(** The exceptions the modelled code can raise. [UnicodeDecodeError] is a
    subclass of [ValueError] and is not kept apart from it. *)
Inductive exn : Type :=
| SystemExit (code : Z)
| ValueError
| OSError
| UnboundLocalError (name : string)
| StopIteration
| LibraryError.

(** Is the exception an instance of [OSError] (what [except OSError]
    catches)? *)
Definition is_OSError (e : exn) : bool :=
  match e with OSError => true | _ => false end.

Inductive result (A : Type) : Type :=
| Ok (a : A)
| Raise (e : exn).
Arguments Ok {A} a.
Arguments Raise {A} e.

(** ** The builtin [int(str)], base 10

    Leading and trailing ASCII whitespace is dropped, one sign is allowed,
    and digits may be grouped by single underscores.  The text is taken as
    ASCII (sysfs descriptors are); the interpreter's limit on the number of
    digits is not modelled. *)

Definition is_space (c : ascii) : bool :=
  let n := N_of_ascii c in
  ((9 <=? n) && (n <=? 13))%N || (n =? 32)%N.

Definition digit_of (c : ascii) : option Z :=
  let n := Z.of_N (N_of_ascii c) in
  if (48 <=? n) && (n <=? 57) then Some (n - 48) else None.

Fixpoint lstrip (s : string) : string :=
  match s with
  | EmptyString => EmptyString
  | String c t => if is_space c then lstrip t else s
  end.

Fixpoint rstrip (s : string) : string :=
  match s with
  | EmptyString => EmptyString
  | String c t =>
      match rstrip t with
      | EmptyString => if is_space c then EmptyString else String c EmptyString
      | t' => String c t'
      end
  end.

Definition strip (s : string) : string := rstrip (lstrip s).

(** [after_digit] says that the previous character was a digit, which is
    where an underscore or the end of the text may follow. *)
Fixpoint digits_from (acc : Z) (after_digit : bool) (s : string) : option Z :=
  match s with
  | EmptyString => if after_digit then Some acc else None
  | String c t =>
      match digit_of c with
      | Some d => digits_from (10 * acc + d) true t
      | None =>
          if Ascii.eqb c "_" && after_digit then digits_from acc false t
          else None
      end
  end.

Definition py_int (s : string) : option Z :=
  match strip s with
  | String "+" t => digits_from 0 false t
  | String "-" t => option_map Z.opp (digits_from 0 false t)
  | t => digits_from 0 false t
  end.

(** [int(v)] for a namespace value: an [int] is returned as it is. *)
Definition int_of (v : pyval) : option Z :=
  match v with
  | VInt z => Some z
  | VStr s => py_int s
  end.

(** [s.split(',')] *)
Fixpoint split_comma (s : string) : list string :=
  match s with
  | EmptyString => [EmptyString]
  | String c t =>
      if Ascii.eqb c "," then EmptyString :: split_comma t
      else match split_comma t with
           | h :: r => String c h :: r
           | [] => [String c EmptyString]
           end
  end.

(** [[int(i) for i in parts]]: the first part that does not parse makes the
    whole comprehension raise. *)
Fixpoint ints_of (parts : list string) : option (list Z) :=
  match parts with
  | [] => Some []
  | p :: ps =>
      match py_int p with
      | None => None
      | Some z => option_map (cons z) (ints_of ps)
      end
  end.

(** [s[:2]] *)
Definition first_two (s : string) : string := String.substring 0 2 s.

(** ** Effects *)

Inductive level : Type := DEBUG | INFO | WARNING | ERROR.

(** Shape handed to [numpy.memmap]: [(height, width, depth)], each as the
    namespace holds it. *)
Definition shape : Type := (pyval * pyval * pyval)%type.

Definition bytes : Type := list byte.

(** What the program does to the outside world, in order. A logging event
    records the call on the logger (format and arguments), before the
    logger's own level filter. *)
Inductive event : Type :=
| EvLog (lvl : level) (fmt : string) (args : list pyval)
| EvOpen (path : string)
| EvRoute (method path : string)
| EvNotify (msg : string)
| EvRun (host : string) (port : Z) (minthreads maxthreads : pyval)
| EvPrint (msg : string)
| EvMemmap (path dtype mode : string) (shp : shape)
| EvSetHeader (name value : string)
| EvSleep (ms : N)
| EvYield (chunk : bytes).

(** The thread's view of the world: its clock, in milliseconds, and what it
    has done so far, oldest first. *)
Record world : Type := World { now : N; trace : list event }.

Definition M (A : Type) : Type := world -> result A * world.

Definition ret {A} (a : A) : M A := fun w => (Ok a, w).

Definition bind {A B} (m : M A) (k : A -> M B) : M B :=
  fun w =>
    match m w with
    | (Ok a, w') => k a w'
    | (Raise e, w') => (Raise e, w')
    end.

Definition raise {A} (e : exn) : M A := fun w => (Raise e, w).

Definition emit (e : event) : M unit :=
  fun w => (Ok tt, World (now w) (trace w ++ [e])).

(** Let [ms] milliseconds pass. *)
Definition elapse (ms : N) : M unit :=
  fun w => (Ok tt, World (now w + ms)%N (trace w)).

(** [try: body  except OSError: handler] *)
Definition try_except_OSError {A} (body handler : M A) : M A :=
  fun w =>
    match body w with
    | (Raise e, w') => if is_OSError e then handler w' else (Raise e, w')
    | r => r
    end.

(** The monad is used through stdpp's notations: [x ← m; k] and [m;; k]. *)
#[export] Instance M_ret : MRet M := @ret.
#[export] Instance M_bind : MBind M := fun A B k m => bind m k.

Definition log (lvl : level) (fmt : string) (args : list pyval) : M unit :=
  emit (EvLog lvl fmt args).

(** ** The file system, as the descriptor reads see it *)

Inductive file_result : Type :=
| FileOSError                (* absent, or permission denied *)
| FileUndecodable            (* opened, but its bytes are not UTF-8 *)
| FileText (content : string).

Definition filesystem : Type := string -> file_result.

(** [with open(path, 'r', encoding='utf-8') as f: f.read()] *)
Definition open_read (fs : filesystem) (path : string) : M string :=
  emit (EvOpen path);;
  match fs path with
  | FileOSError => raise OSError
  | FileUndecodable => raise ValueError
  | FileText s => ret s
  end.

(** ** ConfigHandler *)

(** The namespace [parse_command_line] leaves in [self.args]. [log_level] is
    the integer of the defaults ([logging.INFO], or [logging.DEBUG] under
    [--debug]) unless a config file replaces it, by a string. [extra] holds
    the keys a config file adds beyond the declared options: [defaults] is
    updated with every item of its sections. *)
Record Namespace : Type := {
  log_level : pyval;
  device : string;
  width : pyval;
  height : pyval;
  depth : pyval;
  minthreads : pyval;
  maxthreads : pyval;
  extra : list (string * pyval)
}.

Definition set_width (v : pyval) (a : Namespace) : Namespace :=
  {| log_level := log_level a; device := device a; width := v;
     height := height a; depth := depth a; minthreads := minthreads a;
     maxthreads := maxthreads a; extra := extra a |}.

Definition set_height (v : pyval) (a : Namespace) : Namespace :=
  {| log_level := log_level a; device := device a; width := width a;
     height := v; depth := depth a; minthreads := minthreads a;
     maxthreads := maxthreads a; extra := extra a |}.

Definition set_depth (v : pyval) (a : Namespace) : Namespace :=
  {| log_level := log_level a; device := device a; width := width a;
     height := height a; depth := v; minthreads := minthreads a;
     maxthreads := maxthreads a; extra := extra a |}.

Definition sysfs_path (dev : string) : string :=
  "/sys/class/graphics/" +:+ dev +:+ "/".

Definition virtual_size_file (dev : string) : string :=
  sysfs_path dev +:+ "virtual_size".

Definition bits_per_pixel_file (dev : string) : string :=
  sysfs_path dev +:+ "bits_per_pixel".

(** [isinstance(n, int)] for the result of [int(...)]. *)
Definition isinstance_int (n : Z) : bool := true.

(** [int(v)], raising [ValueError] when the text is not a number. *)
Definition int_or_raise (v : pyval) : M Z :=
  match int_of v with
  | Some z => ret z
  | None => raise ValueError
  end.

(** Lines 255-267: the checks that end in [sys.exit(1)]. *)
Definition validate (args : Namespace) : M unit :=
  e1 ← (if String.eqb (device args) EmptyString
         then log ERROR "No frambuffer device specified." [];; ret true
         else ret false);
  n ← int_or_raise (minthreads args);
  e2 ← (if negb (isinstance_int n)
         then log ERROR "Invalid minthreads: %s" [minthreads args];; ret true
         else ret e1);
  m ← int_or_raise (maxthreads args);
  e3 ← (if negb (isinstance_int m)
         then log ERROR "Invalid maxthreads: %s" [maxthreads args];; ret true
         else ret e2);
  if (e3 : bool) then raise (SystemExit 1) else ret tt.

(** The body of the first [try]: read the file, split at commas, convert
    every part, unpack into exactly two names. *)
Definition read_virtual_size (fs : filesystem) (this_file : string)
  : M (Z * Z) :=
  txt ← open_read fs this_file;
  match ints_of (split_comma txt) with
  | Some [w; h] => ret (w, h)
  | _ => raise ValueError
  end.

(** Lines 272-283. The local names [width] and [height] are bound only when
    the [try] body ran to its end: [None] is the unbound state, and reading
    an unbound local raises. *)
Definition resolve_size (fs : filesystem) (args : Namespace) : M Namespace :=
  if is_auto (width args) || is_auto (height args) then
    let this_file := virtual_size_file (device args) in
    locals ← try_except_OSError
                (wh ← read_virtual_size fs this_file; ret (Some wh))
                (log WARNING "Could not read %s" [VStr this_file];; ret None);
    args1 ← (if is_auto (width args) then
                match locals with
                | Some (w, _) => ret (set_width (VInt w) args)
                | None => raise (UnboundLocalError "width")
                end
              else ret args);
    if is_auto (height args1) then
      match locals with
      | Some (_, h) => ret (set_height (VInt h) args1)
      | None => raise (UnboundLocalError "height")
      end
    else ret args1
  else ret args.

(** Lines 285-291. *)
Definition resolve_depth (fs : filesystem) (args : Namespace) : M Namespace :=
  if is_auto (depth args) then
    let this_file := bits_per_pixel_file (device args) in
    try_except_OSError
      (txt ← open_read fs this_file;
       d ← int_or_raise (VStr (first_two txt));
       ret (set_depth (VInt d) args))
      (log WARNING "Could not read %s" [VStr this_file];; ret args)
  else ret args.

(** Lines 269-291: the geometry resolution proper. *)
Definition resolve_geometry (fs : filesystem) (args : Namespace)
  : M Namespace :=
  log DEBUG "sysfs_path: %s" [VStr (sysfs_path (device args))];;
  args1 ← resolve_size fs args;
  resolve_depth fs args1.

Definition check_args (fs : filesystem) (args : Namespace) : M Namespace :=
  validate args;;
  resolve_geometry fs args.

(** ** get_logger *)

(** A [logging.Logger], as far as [get_logger] touches it: its numeric level
    (0 is [NOTSET]) and its handlers, by name. *)
Record logger : Type := { lg_level : Z; lg_handlers : list string }.

Definition STDOUT_HANDLER : string := "STDOUT_HANDLER".

(** The module's dictionary [loggers] and the loggers the [logging] module
    knows. A logger object is referred to by the name under which
    [logging.getLogger] keeps it. *)
Record logging_state : Type := {
  loggers : gmap string string;
  manager : gmap string logger
}.

(** [logging._checkLevel], which [setLevel] applies to its argument: an
    integer is taken as it is, a string has to be the name of a level. *)
Definition check_level (v : pyval) : result Z :=
  match v with
  | VInt z => Ok z
  | VStr s =>
      if String.eqb s "CRITICAL" || String.eqb s "FATAL" then Ok 50
      else if String.eqb s "ERROR" then Ok 40
      else if String.eqb s "WARN" || String.eqb s "WARNING" then Ok 30
      else if String.eqb s "INFO" then Ok 20
      else if String.eqb s "DEBUG" then Ok 10
      else if String.eqb s "NOTSET" then Ok 0
      else Raise ValueError
  end.

(** The name [get_logger] computes; [prog] is
    [os.path.splitext(os.path.basename(__file__))[0]] and [logging.DEBUG] is
    10. *)
Definition logger_name (prog class_name : string) (log_level : pyval) : string :=
  if pyval_eqb log_level (VInt 10) then prog +:+ "." +:+ class_name else prog.

(** [get_logger(class_name, log_level)]: the logger it returns, or the
    exception of [setLevel], and the state it leaves. A logger already in
    [loggers] is returned as it is; otherwise [logging.getLogger] finds or
    creates the logger, the stdout handler is added if it has no handler,
    its level is set and it is entered in [loggers]. *)
Definition get_logger (prog class_name : string) (log_level : pyval)
    (st : logging_state) : result string * logging_state :=
  let name := logger_name prog class_name log_level in
  match loggers st !! name with
  | Some lg => (Ok lg, st)
  | None =>
      let lg := default {| lg_level := 0; lg_handlers := [] |}
                        (manager st !! name) in
      let hs := match lg_handlers lg with
                | [] => lg_handlers lg ++ [STDOUT_HANDLER]
                | _ => lg_handlers lg
                end in
      match check_level log_level with
      | Ok n =>
          (Ok name,
           {| loggers := <[name := name]> (loggers st);
              manager := <[name := {| lg_level := n; lg_handlers := hs |}]>
                           (manager st) |})
      | Raise e =>
          (Raise e,
           {| loggers := loggers st;
              manager := <[name := {| lg_level := lg_level lg;
                                      lg_handlers := hs |}]> (manager st) |})
      end
  end.

(** A run of the program asks for loggers one after the other. *)
Definition get_loggers (prog : string) (calls : list (string * pyval))
    (st : logging_state) : logging_state :=
  fold_left (fun s c => snd (get_logger prog (fst c) (snd c) s)) calls st.

Definition no_loggers : logging_state := {| loggers := ∅; manager := ∅ |}.

(** The loggers as [ConfigHandler.__init__] leaves them: it asks for its own
    logger with [logging.DEBUG] under [--debug] and [logging.INFO]
    otherwise. *)
Definition loggers_after_config (prog : string) (debug : bool) : logging_state :=
  snd (get_logger prog "ConfigHandler" (VInt (if debug then 10 else 20))
                  no_loggers).

(** ** StreamHandler *)

(** The Bottle application: the configuration it was built with and the
    routes registered on it, as (method, path). *)
Record Bottle : Type := { params : Namespace; routes : list (string * string) }.

(** [self.route(path, callback=...)]: Bottle's default method is GET. *)
Definition route (path : string) (self : Bottle) : M Bottle :=
  emit (EvRoute "GET" path);;
  ret {| params := params self; routes := routes self ++ [("GET", path)] |}.

(** [StreamHandler.__init__], in a process whose loggers are [lst]. What
    [get_logger] raises leaves the constructor. *)
Definition StreamHandler_init (prog : string) (lst : logging_state)
    (kwargs : Namespace) : M Bottle :=
  let self := {| params := kwargs; routes := [] |} in
  match fst (get_logger prog "StreamHandler" (log_level kwargs) lst) with
  | Ok _ => ret tt
  | Raise e => raise e
  end;;
  log DEBUG "Framebuffer size (h, w, d): (%s, %s, %s)"
      [height kwargs; width kwargs; depth kwargs];;
  self ← route "/stream" self;
  log INFO "Initialization done. Signalling readiness." [];;
  emit (EvNotify "READY=1");;
  ret self.

(** [StreamHandler.start_server]: [run] returns when the server stops. *)
Definition start_server (self : Bottle) : M unit :=
  log INFO "Starting web server.." [];;
  emit (EvRun "0.0.0.0" 8808
              (minthreads (params self)) (maxthreads (params self))).

(** [try: body  except SystemExit: pass  finally: print('Exiting.')] *)
Definition try_finally_exiting (body : M unit) : M unit :=
  fun w =>
    match body w with
    | (Ok tt, w') => emit (EvPrint "Exiting.") w'
    | (Raise (SystemExit _), w') => emit (EvPrint "Exiting.") w'
    | (Raise e, w') => (emit (EvPrint "Exiting.");; raise e) w'
    end.

(** [main], from the merged command line and config file on; [lst] holds the
    loggers as the parsing steps of [ConfigHandler] left them. *)
Definition main (prog : string) (lst : logging_state) (fs : filesystem)
    (merged : Namespace) : M unit :=
  args ← check_args fs merged;
  stream_handler ← StreamHandler_init prog lst args;
  try_finally_exiting (start_server stream_handler).

(** The array [numpy.memmap] returns: which file, how, and in what shape. *)
Record memmap : Type := {
  map_file : string;
  map_dtype : string;
  map_mode : string;
  map_shape : shape
}.

(** A generator object is created unstarted, is suspended at its [yield]
    between two calls of [next], and is closed once an exception has left
    its body. *)
Inductive gen_status : Type := GenCreated | GenSuspended | GenClosed.

(** The generator [get_frame()] returns, with the names its body closes
    over. *)
Record generator : Type := {
  g_status : gen_status;
  g_params : Namespace;
  g_nda : memmap
}.

Definition gen_status_eq_dec (a b : gen_status) : {a = b} + {a <> b}.
Proof. decide equality. Defined.

Definition set_status (st : gen_status) (g : generator) : generator :=
  {| g_status := st; g_params := g_params g; g_nda := g_nda g |}.

(** What the environment contributes to one pass of the loop: how long the
    consumer took to ask for the next chunk, by how much the sleep overran,
    the device memory as it stood when it was read, and how long the
    encoding took. Times are in milliseconds. *)
Record tick : Type := { idle : N; overrun : N; pixels : bytes; work : N }.

Definition CRLF : bytes := [x0d; x0a].
Definition BOUNDARY : bytes := list_byte_of_string "--frame".
Definition PART_HEADER : bytes := list_byte_of_string "Content-Type: image/png".

(** The two adjacent literals of the [yield] expression. *)
Definition CHUNK_HEAD : bytes :=
  (BOUNDARY ++ CRLF) ++ (PART_HEADER ++ CRLF ++ CRLF).

Definition TICK_MS : N := 100.

Section Streaming.

(** [Image.frombuffer('I;16', (width, height), nda).save(bytesbuf, 'PNG')]
    followed by [bytesbuf.getvalue()]: Pillow's encoder, given the size
    as the namespace holds it, the mapping and the mapped memory. *)
Variable png_save : pyval -> pyval -> memmap -> bytes -> result bytes.

(** [StreamHandler.stream]. [mm] is what [numpy.memmap] does with the
    device at this call: [None] when it returns the array. *)
Definition stream (self : Bottle) (mm : option exn) : M generator :=
  let p := params self in
  let nda := {| map_file := "/dev/" +:+ device p; map_dtype := "uint16";
                map_mode := "r";
                map_shape := (height p, width p, depth p) |} in
  emit (EvMemmap (map_file nda) (map_dtype nda) (map_mode nda)
                 (map_shape nda));;
  match mm with Some e => raise e | None => ret tt end;;
  emit (EvSetHeader "Content-Type"
                    "multipart/x-mixed-replace; boundary=frame");;
  ret {| g_status := GenCreated; g_params := p; g_nda := nda |}.

(** One pass of [while True] in [get_frame], up to and including the
    [yield]. *)
Definition get_frame_pass (p : Namespace) (nda : memmap) (tk : tick)
  : M bytes :=
  emit (EvSleep TICK_MS);;
  elapse (TICK_MS + overrun tk);;
  elapse (work tk);;
  io_image ← (match png_save (width p) (height p) nda (pixels tk) with
               | Ok b => ret b
               | Raise e => raise e
               end);
  let chunk := (CHUNK_HEAD ++ io_image) ++ CRLF in
  emit (EvYield chunk);;
  ret chunk.

(** [next(gen)] *)
Definition gen_next (g : generator) (tk : tick) (w : world)
  : result bytes * generator * world :=
  match g_status g with
  | GenClosed => (Raise StopIteration, g, w)
  | _ =>
      match get_frame_pass (g_params g) (g_nda g) tk w with
      | (Ok c, w') => (Ok c, set_status GenSuspended g, w')
      | (Raise e, w') => (Raise e, set_status GenClosed g, w')
      end
  end.

(** Asking one generator for chunk after chunk; the consumer's own time
    between two requests passes first. *)
Fixpoint pulls (g : generator) (w : world) (tks : list tick)
  : list (result bytes) * generator * world :=
  match tks with
  | [] => ([], g, w)
  | tk :: rest =>
      let '(r, g1, w1) :=
        gen_next g tk (World (now w + idle tk)%N (trace w)) in
      let '(rs, g2, w2) := pulls g1 w1 rest in
      (r :: rs, g2, w2)
  end.

(** The worker's clock at the moment each of these requests returns. *)
Fixpoint pull_clocks (g : generator) (w : world) (tks : list tick)
  : list N :=
  match tks with
  | [] => []
  | tk :: rest =>
      let '(_, g1, w1) :=
        gen_next g tk (World (now w + idle tk)%N (trace w)) in
      now w1 :: pull_clocks g1 w1 rest
  end.

(** *** The server's connections *)

(** A connection is served by a worker thread with its own clock and
    trace; it has a generator when the route callback returned one. *)
Record conn : Type := { c_gen : option generator; c_world : world }.

Record server : Type := { srv_app : Bottle; srv_conns : list conn }.

(** A request for [/stream] accepted at time [t_accept], or the worker of
    connection [c] asking its generator for the next chunk. *)
Inductive action : Type :=
| Request (t_accept : N) (mm : option exn)
| Pull (c : nat) (tk : tick).

Definition handle_request (self : Bottle) (t_accept : N) (mm : option exn)
  : conn :=
  match stream self mm (World t_accept []) with
  | (Ok g, w) => {| c_gen := Some g; c_world := w |}
  | (Raise _, w) => {| c_gen := None; c_world := w |}
  end.

Definition pull (cn : conn) (tk : tick) : conn :=
  match c_gen cn with
  | None => cn
  | Some g =>
      let '(_, g', w') := pulls g (c_world cn) [tk] in
      {| c_gen := Some g'; c_world := w' |}
  end.

Definition step (s : server) (a : action) : server :=
  match a with
  | Request t mm =>
      {| srv_app := srv_app s;
         srv_conns := srv_conns s ++ [handle_request (srv_app s) t mm] |}
  | Pull c tk =>
      match srv_conns s !! c with
      | Some cn =>
          {| srv_app := srv_app s;
             srv_conns := <[c := pull cn tk]> (srv_conns s) |}
      | None => s
      end
  end.

Definition serve (s : server) (acts : list action) : server :=
  fold_left step acts s.

End Streaming.

(** ** Observations on traces *)

Definition is_open_of (path : string) (e : event) : bool :=
  match e with EvOpen p => String.eqb p path | _ => false end.

Definition is_memmap (e : event) : bool :=
  match e with EvMemmap _ _ _ _ => true | _ => false end.

Definition is_set_content_type (e : event) : bool :=
  match e with EvSetHeader n _ => String.eqb n "Content-Type" | _ => false end.

Definition is_yield (e : event) : bool :=
  match e with EvYield _ => true | _ => false end.


Definition count (f : event -> bool) (tr : list event) : nat :=
  length (filter (fun e => f e = true) tr).

(** How often [path] was opened. *)
Definition reads_of (path : string) (tr : list event) : nat :=
  count (is_open_of path) tr.

(** All [numpy.memmap] calls of the process: those of every worker. *)
Definition memmaps_of (s : server) : nat :=
  sum_list (map (fun cn => count is_memmap (trace (c_world cn))) (srv_conns s)).

Fixpoint requests_in (acts : list action) : nat :=
  match acts with
  | [] => 0
  | Request _ _ :: r => S (requests_in r)
  | Pull _ _ :: r => requests_in r
  end.

(** Does [pat] start [l]? *)
Fixpoint starts_with (pat l : bytes) : bool :=
  match pat, l with
  | [], _ => true
  | _ :: _, [] => false
  | p :: pat', x :: l' => Byte.eqb p x && starts_with pat' l'
  end.

(** The number of positions of [l] at which [pat] occurs. *)
Fixpoint occurrences (pat l : bytes) : nat :=
  match l with
  | [] => if starts_with pat [] then 1 else 0
  | _ :: l' => (if starts_with pat l then 1 else 0) + occurrences pat l'
  end.

(** The port and host [run] was given, read off the trace. *)
Fixpoint listening (tr : list event) : option (string * Z) :=
  match tr with
  | [] => None
  | EvRun h p _ _ :: _ => Some (h, p)
  | _ :: r => listening r
  end.

(** The trace of a whole start-up on an empty world. *)
Definition startup_trace (prog : string) (lst : logging_state)
    (fs : filesystem) (merged : Namespace) : list event :=
  trace (snd (main prog lst fs merged (World 0 []))).

(** ** Notions used in the statements *)

(** What the first [try] leaves behind, by what the file system answers. *)
Definition size_outcome (fs : filesystem) (dev : string) : result (Z * Z) :=
  match fs (virtual_size_file dev) with
  | FileOSError => Raise OSError
  | FileUndecodable => Raise ValueError
  | FileText txt =>
      match ints_of (split_comma txt) with
      | Some [w; h] => Ok (w, h)
      | _ => Raise ValueError
      end
  end.

(** No byte of [pat] is a byte of [s]. *)
Definition no_common (pat s : bytes) : bool :=
  forallb (fun b => negb (existsb (Byte.eqb b) s)) pat.

(** The events a generator adds to its worker's trace. *)
Definition is_gen_event (e : event) : bool :=
  match e with EvSleep _ | EvYield _ => true | _ => false end.

(** The events argument checking can add to the trace. *)
Definition is_config_event (e : event) : bool :=
  match e with EvLog _ _ _ | EvOpen _ => true | _ => false end.

Definition config_only (tr : list event) : Prop :=
  Forall (fun e => is_config_event e = true) tr.

(** The instant before chunk [n]: the start of the run for the first chunk,
    the instant of the previous chunk otherwise. *)
Definition instant_before (start : N) (clocks : list N) (n : nat) : N :=
  match n with
  | O => start
  | S m => default 0%N (clocks !! m)
  end.

(** Does the encoder accept the memory of every one of these ticks? *)
Definition encodes (png : pyval -> pyval -> memmap -> bytes -> result bytes)
    (g : generator) (tks : list tick) : Prop :=
  Forall (fun tk => exists img : bytes,
            png (width (g_params g)) (height (g_params g)) (g_nda g)
                (pixels tk) = Ok img) tks.

(** The connection a request for [/stream] gets when the mapping succeeds:
    an unstarted generator, and a trace that holds the mapping and the
    header and nothing older. *)
Definition fresh_conn (self : Bottle) (t_accept : N) : conn :=
  let p := params self in
  let nda := {| map_file := "/dev/" +:+ device p; map_dtype := "uint16";
                map_mode := "r"; map_shape := (height p, width p, depth p) |} in
  {| c_gen := Some {| g_status := GenCreated; g_params := p; g_nda := nda |};
     c_world := World t_accept
                  [EvMemmap (map_file nda) "uint16" "r" (map_shape nda);
                   EvSetHeader "Content-Type"
                               "multipart/x-mixed-replace; boundary=frame"] |}.

(** A worker's trace begins with the one mapping of its connection. *)
Definition mapped_once (self : Bottle) (cn : conn) : Prop :=
  exists rest,
    trace (c_world cn)
    = EvMemmap ("/dev/" +:+ device (params self)) "uint16" "r"
               (height (params self), width (params self), depth (params self))
        :: rest
    /\ count is_memmap rest = 0%nat.

(** The array a generator closes over is the one its own request mapped. *)
Definition own_mapping (self : Bottle) (cn : conn) : Prop :=
  forall g, c_gen cn = Some g ->
    g_nda g = {| map_file := "/dev/" +:+ device (params self);
                 map_dtype := "uint16"; map_mode := "r";
                 map_shape := (height (params self), width (params self),
                               depth (params self)) |}.

(** Did [numpy.memmap] return for this connection, so that the route
    callback went on to build its generator? *)
Definition has_mapping (cn : conn) : bool :=
  match c_gen cn with Some _ => true | None => false end.

(** The regions of the device the process has mapped: one for every
    connection whose [numpy.memmap] call returned an array. *)
Definition mappings_of (s : server) : nat :=
  sum_list (map (fun cn => if has_mapping cn then 1%nat else 0%nat) (srv_conns s)).

(** The requests of a run at which [numpy.memmap] returns. *)
Fixpoint mapped_requests_in (acts : list action) : nat :=
  match acts with
  | [] => 0
  | Request _ None :: r => S (mapped_requests_in r)
  | _ :: r => mapped_requests_in r
  end.


(** What [main] does once argument checking has returned. *)
Definition after_check (args : Namespace) : list event :=
  [EvLog DEBUG "Framebuffer size (h, w, d): (%s, %s, %s)"
         [height args; width args; depth args];
   EvRoute "GET" "/stream";
   EvLog INFO "Initialization done. Signalling readiness." [];
   EvNotify "READY=1";
   EvLog INFO "Starting web server.." [];
   EvRun "0.0.0.0" 8808 (minthreads args) (maxthreads args);
   EvPrint "Exiting."].

(** ** Inputs used in the examples *)

Definition NL : string := String (ascii_of_nat 10) EmptyString.

(** The defaults of [ConfigHandler.__init__]. *)
Definition fb1_auto : Namespace :=
  {| log_level := VInt 20; device := "fb1"; width := AUTO; height := AUTO;
     depth := AUTO; minthreads := VInt 1; maxthreads := VInt 4; extra := [] |}.

(** [-W 320 -H 240] on the command line, and a config file with a [port]
    key. *)
Definition fb1_sized : Namespace :=
  {| log_level := VInt 20; device := "fb1"; width := VStr "320";
     height := VStr "240"; depth := AUTO; minthreads := VInt 1;
     maxthreads := VStr "4"; extra := [("port", VStr "9000")] |}.

(** [-W -7 -H abc -D 0] *)
Definition fb1_nonsense : Namespace :=
  {| log_level := VInt 20; device := "fb1"; width := VStr "-7";
     height := VStr "abc"; depth := VStr "0"; minthreads := VInt 1;
     maxthreads := VInt 4; extra := [] |}.

Definition sysfs_of (size bpp : file_result) : filesystem :=
  fun path =>
    if String.eqb path "/sys/class/graphics/fb1/virtual_size" then size
    else if String.eqb path "/sys/class/graphics/fb1/bits_per_pixel" then bpp
    else FileOSError.

Definition sysfs_320_240_16 : filesystem :=
  sysfs_of (FileText ("320,240" +:+ NL)) (FileText ("16" +:+ NL)).

Definition sysfs_absent : filesystem := fun _ => FileOSError.

Definition sysfs_malformed : filesystem :=
  sysfs_of (FileText "320x240") (FileText "xx").

Definition w_start : world := World 0 [].

(** A stand-in for the encoder in the examples: the "image" is the mapped
    memory itself. *)
Definition raw_encoder (w h : pyval) (nda : memmap) (px : bytes)
  : result bytes := Ok px.

Definition app_sized : Bottle :=
  {| params := fb1_sized; routes := [("GET", "/stream")] |}.

Definition gen_sized : generator :=
  {| g_status := GenCreated; g_params := fb1_sized;
     g_nda := {| map_file := "/dev/fb1"; map_dtype := "uint16";
                 map_mode := "r";
                 map_shape := (VStr "240", VStr "320", AUTO) |} |}.

(** The defaults, once [320,240] and [16] have been read from the
    descriptors: the geometry is three integers. *)
Definition fb1_detected : Namespace :=
  {| log_level := VInt 20; device := "fb1"; width := VInt 320;
     height := VInt 240; depth := VInt 16; minthreads := VInt 1;
     maxthreads := VInt 4; extra := [] |}.

Definition app_detected : Bottle :=
  {| params := fb1_detected; routes := [("GET", "/stream")] |}.

Definition gen_detected : generator :=
  {| g_status := GenCreated; g_params := fb1_detected;
     g_nda := {| map_file := "/dev/fb1"; map_dtype := "uint16";
                 map_mode := "r";
                 map_shape := (VInt 240, VInt 320, VInt 16) |} |}.

(** [-W -7] alone: height and depth are left to the descriptors. *)
Definition fb1_mixed : Namespace :=
  {| log_level := VInt 20; device := "fb1"; width := VStr "-7";
     height := AUTO; depth := AUTO; minthreads := VInt 1;
     maxthreads := VInt 4; extra := [] |}.

(** [--debug] on the command line and [log_level = 20] in the config file:
    the file's string replaces the integer of the defaults. *)
Definition fb1_debug_level : Namespace :=
  {| log_level := VStr "20"; device := "fb1"; width := AUTO; height := AUTO;
     depth := AUTO; minthreads := VInt 1; maxthreads := VInt 4; extra := [] |}.


Definition tick_a : tick :=
  {| idle := 3; overrun := 1; pixels := [x00; x2a; xff]; work := 7 |}.

Definition tick_b : tick :=
  {| idle := 0; overrun := 0; pixels := [x01]; work := 0 |}.

(** Device memory that spells the start of a part. *)
Definition tick_marker : tick :=
  {| idle := 0; overrun := 0; pixels := CHUNK_HEAD; work := 0 |}.

(** * The rest of the program *)

(** ** Decimal numerals *)

(** [str(n)] for a non-negative integer; also what the kernel prints into
    a descriptor. *)
Definition decimal (n : nat) : string :=
  NilEmpty.string_of_uint (Nat.to_uint n).

(** ** signal_handler and CherryPyServer *)

(** [signal_handler(sig, _frame)] *)
Definition signal_handler (sig : nat) : M unit :=
  emit (EvPrint (NL +:+ "Caught signal: " +:+ decimal sig +:+ " " +:+ NL));;
  raise (SystemExit 0).

(** The adapter Bottle builds from the arguments of [run]:
    [ServerAdapter.__init__] keeps host and port and collects every other
    keyword in [options]. *)
Record ServerAdapter : Type := {
  sa_host : string;
  sa_port : Z;
  sa_options : list (string * pyval)
}.

(** A [cheroot.wsgi.Server]: its bind address, and how often it has been
    started and stopped. *)
Record wsgi_server : Type := {
  bind_addr : string * Z;
  starts : nat;
  stops : nat
}.

(** How [server.start()] ends: it returns, a signal is handled in the main
    thread while it serves, or it raises. *)
Inductive serving : Type :=
| Returned
| Signalled (sig : nat)
| Failed (e : exn).

Definition wsgi_start (o : serving) (srv : wsgi_server) (w : world)
  : result unit * wsgi_server * world :=
  let srv' := {| bind_addr := bind_addr srv; starts := S (starts srv);
                 stops := stops srv |} in
  match o with
  | Returned => (Ok tt, srv', w)
  | Signalled sig => (fst (signal_handler sig w), srv', snd (signal_handler sig w))
  | Failed e => (Raise e, srv', w)
  end.

Definition wsgi_stop (srv : wsgi_server) : wsgi_server :=
  {| bind_addr := bind_addr srv; starts := starts srv; stops := S (stops srv) |}.

(** [CherryPyServer.run(handler)] *)
Definition CherryPyServer_run (self : ServerAdapter) (o : serving) (w : world)
  : result unit * wsgi_server * world :=
  let server := {| bind_addr := (sa_host self, sa_port self);
                   starts := 0; stops := 0 |} in
  match wsgi_start o server w with
  | (Ok tt, srv, w') => (Ok tt, wsgi_stop srv, w')
  | (Raise (SystemExit _), srv, w') => (Ok tt, wsgi_stop srv, w')
  | (Raise e, srv, w') => (Raise e, wsgi_stop srv, w')
  end.

(** [Bottle.run] called with a server class: the adapter is built and
    run, and what it raises passes through. What Bottle itself writes to
    stderr is not recorded. *)
Definition Bottle_run (host : string) (port : Z)
    (options : list (string * pyval)) (o : serving) : M unit :=
  fun w =>
    let out := CherryPyServer_run
                 {| sa_host := host; sa_port := port; sa_options := options |}
                 o w in
    (fst (fst out), snd out).

(** [StreamHandler.start_server], with the way the serving ends. *)
Definition start_server_serving (self : Bottle) (o : serving) : M unit :=
  log INFO "Starting web server.." [];;
  emit (EvRun "0.0.0.0" 8808
              (minthreads (params self)) (maxthreads (params self)));;
  Bottle_run "0.0.0.0" 8808
             [("minthreads", minthreads (params self));
              ("maxthreads", maxthreads (params self))] o.

Definition main_serving (prog : string) (lst : logging_state)
    (fs : filesystem) (merged : Namespace) (o : serving) : M unit :=
  args ← check_args fs merged;
  stream_handler ← StreamHandler_init prog lst args;
  try_finally_exiting (start_server_serving stream_handler o).

(** ** ConfigHandler: where the namespace comes from *)

(** A value of the parsed namespace: besides strings and integers, the flag
    [debug] and an option that was not given. *)
Inductive argval : Type :=
| AVal (v : pyval)
| ABool (b : bool)
| ANone.

Definition CONFIG_FILE : string := "fbstream.ini".

(** [self.defaults] of [ConfigHandler.__init__]; [logging.INFO] is 20. *)
Definition DEFAULTS : gmap string pyval :=
  list_to_map [("log_level", VInt 20); ("config_file", VStr CONFIG_FILE);
               ("device", VStr "fb1"); ("width", AUTO); ("height", AUTO);
               ("depth", AUTO); ("minthreads", VInt 1); ("maxthreads", VInt 4)].

(** The options that take a value, by destination. *)
Definition DECLARED : gset string :=
  list_to_set ["config_file"; "device"; "height"; "width"; "depth";
               "minthreads"; "maxthreads"].

(** [os.path.join(a, b)] for two components. *)
Definition path_join (a b : string) : string :=
  match b with
  | String "/" _ => b
  | _ => match a with
         | EmptyString => b
         | _ => if String.eqb (String.substring (String.length a - 1) 1 a) "/"
                then a +:+ b else a +:+ "/" +:+ b
         end
  end.

(** [dict(items)]: a later item replaces an earlier one with its key. *)
Definition dict_of_items (items : list (string * string)) : gmap string pyval :=
  fold_left (fun d kv => <[fst kv := VStr (snd kv)]> d) items ∅.

(** [d.update(e)] *)
Definition dict_update (d e : gmap string pyval) : gmap string pyval := e ∪ d.

(** What [ConfigHandler] keeps between its parsing steps. *)
Record config_state : Type := {
  cs_log_level : level;
  cs_config_file : option string;
  cs_defaults : gmap string pyval
}.

(** How [%s] shows an optional string. *)
Definition show_option (o : option string) : pyval :=
  match o with Some s => VStr s | None => VStr "None" end.

Section ConfigHandler.

(** [os.path.dirname(os.path.realpath(__file__))] *)
Variable script_dir : string.

(** [json.dumps(..., indent=4)], which only feeds debug messages. *)
Variable json_dumps : gmap string argval -> string.

(** [os.path.isfile] *)
Variable isfile : string -> bool.

(** [config.read(file)] followed by [config.items(section)]: for a file,
    either the error the parser raises or, for each section it has, the
    items of that section. *)
Variable read_ini : string -> result (gmap string (list (string * string))).

Definition CONFIG_PATHS : list string :=
  [script_dir; "/usr/local/etc/"; "/etc/"; "/conf/"].

(** [parse_initial_config], given what [-c] and [--debug] say. *)
Definition parse_initial_config (cli_config : option string) (debug : bool)
  : M config_state :=
  let lvl := if debug then DEBUG else INFO in
  let defaults := if debug then <["log_level" := VInt 10]> DEFAULTS
                  else DEFAULTS in
  log DEBUG "Initial args: %s"
      [VStr (json_dumps
               (<["debug" := ABool debug]>
                  {["config_file" := match cli_config with
                                     | Some f => AVal (VStr f)
                                     | None => ANone
                                     end]}))];;
  ret {| cs_log_level := lvl; cs_config_file := cli_config;
         cs_defaults := defaults |}.

(** The [for] loop of [parse_config_file], with its [break]. *)
Fixpoint find_config (paths : list string) : M (option string) :=
  match paths with
  | [] => ret None
  | config_path :: rest =>
      let config_file := path_join config_path CONFIG_FILE in
      log DEBUG "Looking for config file: %s" [VStr config_file];;
      if isfile config_file
      then log INFO "Found config file: %s" [VStr config_file];;
           ret (Some config_file)
      else find_config rest
  end.

(** [config.items(section)] *)
Definition ini_items (ini : gmap string (list (string * string)))
    (section : string) : M (list (string * string)) :=
  match ini !! section with
  | Some items => ret items
  | None => raise LibraryError
  end.

(** [parse_config_file] *)
Definition parse_config_file (st : config_state) : M config_state :=
  log DEBUG "self.args.config_file: %s" [show_option (cs_config_file st)];;
  found ← (match cs_config_file st with
           | None => find_config CONFIG_PATHS
           | Some f => ret (Some f)
           end);
  match found with
  | None => log INFO "No config file found." [];; ret st
  | Some f =>
      if isfile f then
        ini ← (match read_ini f with Ok ini => ret ini | Raise e => raise e end);
        general ← ini_items ini "general";
        let d1 := dict_update (cs_defaults st) (dict_of_items general) in
        stream_items ← ini_items ini "stream";
        let d2 := dict_update d1 (dict_of_items stream_items) in
        log DEBUG "Args from config file: %s" [VStr (json_dumps (AVal <$> d2))];;
        ret {| cs_log_level := cs_log_level st; cs_config_file := Some f;
               cs_defaults := d2 |}
      else
        log ERROR "Config file (%s) does not exist." [VStr f];;
        ret {| cs_log_level := cs_log_level st; cs_config_file := Some f;
               cs_defaults := cs_defaults st |}
  end.

(** [parser.set_defaults] with [self.defaults], then [parser.parse_args()]:
    [cli] holds the options given on the command line, by destination. A
    given option wins over the default for its destination; [--debug] is a
    flag whose own default is [False]; an option with a value that is not
    declared ends the program with status 2 (the help option, which prints
    and exits, is not part of [cli]). *)
Definition parse_args (cli : gmap string string) (debug : bool)
    (defaults : gmap string pyval) : M (gmap string argval) :=
  if decide (dom cli ⊆ DECLARED) then
    ret ((AVal ∘ VStr <$> cli)
           ∪ (if debug then {["debug" := ABool true]} else ∅)
           ∪ (AVal <$> defaults)
           ∪ {["debug" := ABool false]})
  else raise (SystemExit 2).

(** [parse_command_line] *)
Definition parse_command_line (cli : gmap string string) (debug : bool)
    (st : config_state) : M (gmap string argval) :=
  args ← parse_args cli debug (cs_defaults st);
  log DEBUG ("Parsed command line:" +:+ NL +:+ "%s") [VStr (json_dumps args)];;
  ret args.

(** The three parsing steps of [ConfigHandler.__init__], in order. *)
Definition configure (cli : gmap string string) (debug : bool)
  : M (gmap string argval) :=
  st0 ← parse_initial_config (cli !! "config_file") debug;
  st1 ← parse_config_file st0;
  parse_command_line cli debug st1.

End ConfigHandler.

(** ** Notions used in the further statements *)

(** Neither white space nor a comma. *)
Fixpoint plain (s : string) : bool :=
  match s with
  | EmptyString => true
  | String c t => negb (is_space c) && negb (Ascii.eqb c ",") && plain t
  end.

(** The text of [virtual_size] for a screen of [wd] by [ht]. *)
Definition virtual_size_text (wd ht : nat) : string :=
  decimal wd +:+ String "," (decimal ht +:+ NL).

(** The state [get_logger] keeps: a cached name refers to a logger that
    exists and has a handler, and no logger carries the stdout handler
    twice. *)
Definition loggers_sound (st : logging_state) : Prop :=
  (forall name ref, loggers st !! name = Some ref ->
     exists lg, manager st !! ref = Some lg /\ lg_handlers lg <> [])
  /\ (forall name lg, manager st !! name = Some lg ->
        (length (filter (fun h => h = STDOUT_HANDLER) (lg_handlers lg)) <= 1)%nat).

(** The files the search looks at, in order. *)
Definition candidates (script_dir : string) : list string :=
  map (fun p => path_join p CONFIG_FILE) (CONFIG_PATHS script_dir).

(** The file [parse_config_file] settles on: the one named with [-c], or
    else the first candidate that is a file. *)
Definition chosen_config (script_dir : string) (isfile : string -> bool)
    (named : option string) : option string :=
  match named with
  | Some f => Some f
  | None => List.find isfile (candidates script_dir)
  end.

(** [self.defaults] after [parse_initial_config]. *)
Definition base_defaults (debug : bool) : gmap string pyval :=
  if debug then <["log_level" := VInt 10]> DEFAULTS else DEFAULTS.

(** The first source that has a value. *)
Fixpoint first_some {A : Type} (l : list (option A)) : option A :=
  match l with
  | [] => None
  | Some a :: _ => Some a
  | None :: r => first_some r
  end.

(** ** Further inputs used in the examples *)

Definition fb_unnamed : Namespace :=
  {| log_level := VInt 20; device := EmptyString; width := AUTO; height := AUTO;
     depth := AUTO; minthreads := VInt 1; maxthreads := VStr "4"; extra := [] |}.

(** An encoder that rejects one particular memory content. *)
Definition picky_encoder (w h : pyval) (nda : memmap) (px : bytes)
  : result bytes :=
  match px with
  | [] => Raise LibraryError
  | _ => Ok px
  end.

Definition tick_empty : tick :=
  {| idle := 0; overrun := 0; pixels := []; work := 0 |}.

Definition no_json (_ : gmap string argval) : string := "{}".

Definition only_etc (path : string) : bool := String.eqb path "/etc/fbstream.ini".

Definition ini_example : gmap string (list (string * string)) :=
  {[ "general" := [("device", "fb0"); ("port", "9000")];
     "stream" := [("width", "800"); ("device", "fb7")] ]}.

Definition ini_no_stream : gmap string (list (string * string)) :=
  {[ "general" := [("device", "fb0")] ]}.

Definition cli_example : gmap string string :=
  {[ "height" := "480"; "width" := "1024" ]}.

Definition cli_named : gmap string string :=
  {[ "config_file" := "/tmp/missing.ini"; "depth" := "16" ]}.

(** * Properties *)

(** ** Traces *)

Lemma count_nil f : count f [] = 0%nat.
Proof. reflexivity. Qed.

Lemma count_app f tr1 tr2 : count f (tr1 ++ tr2) = (count f tr1 + count f tr2)%nat.
Proof. unfold count. now rewrite filter_app, length_app. Qed.

Lemma count_cons f e tr :
  count f (e :: tr) = ((if f e then 1 else 0) + count f tr)%nat.
Proof.
  unfold count. destruct (f e) eqn:E.
  - rewrite filter_cons_True by assumption. reflexivity.
  - rewrite filter_cons_False by congruence. reflexivity.
Qed.

Lemma reads_of_app path tr1 tr2 :
  reads_of path (tr1 ++ tr2) = (reads_of path tr1 + reads_of path tr2)%nat.
Proof. apply count_app. Qed.

(** ** Paths *)

Lemma descriptor_files_differ dev :
  virtual_size_file dev <> bits_per_pixel_file dev.
Proof.
  unfold virtual_size_file, bits_per_pixel_file. intros H.
  apply (String.app_inj (sysfs_path dev)) in H. discriminate.
Qed.

Lemma is_open_of_self path : is_open_of path (EvOpen path) = true.
Proof. simpl. apply String.eqb_refl. Qed.

Lemma is_open_of_other p q : q <> p -> is_open_of p (EvOpen q) = false.
Proof. intros H. simpl. now apply String.eqb_neq. Qed.

(** ** The two resolution steps, case by case *)

Ltac run_m :=
  unfold mbind, M_bind, mret, M_ret, bind, ret, raise, log, emit, elapse;
  simpl.

Lemma read_virtual_size_eq fs dev w :
  read_virtual_size fs (virtual_size_file dev) w =
  (size_outcome fs dev,
   World (now w) (trace w ++ [EvOpen (virtual_size_file dev)])).
Proof.
  unfold read_virtual_size, open_read, size_outcome. run_m.
  destruct (fs (virtual_size_file dev)) as [| |txt]; try reflexivity.
  destruct (ints_of (split_comma txt)) as [[|a [|b [|c l]]]|]; reflexivity.
Qed.

Lemma resolve_size_explicit fs args w :
  is_auto (width args) || is_auto (height args) = false ->
  resolve_size fs args w = (Ok args, w).
Proof. intros H. unfold resolve_size. now rewrite H. Qed.

Lemma resolve_size_parsed fs args w wd ht :
  is_auto (width args) || is_auto (height args) = true ->
  size_outcome fs (device args) = Ok (wd, ht) ->
  resolve_size fs args w =
  (Ok (let a1 := if is_auto (width args) then set_width (VInt wd) args
                 else args in
       if is_auto (height args) then set_height (VInt ht) a1 else a1),
   World (now w) (trace w ++ [EvOpen (virtual_size_file (device args))])).
Proof.
  intros Hauto Hout. unfold resolve_size. rewrite Hauto.
  unfold try_except_OSError. run_m.
  rewrite read_virtual_size_eq, Hout.
  destruct (is_auto (width args)) eqn:Ew; simpl;
    destruct (is_auto (height args)) eqn:Eh; simpl; try rewrite Eh;
    reflexivity.
Qed.

Lemma resolve_size_unreadable fs args w :
  is_auto (width args) || is_auto (height args) = true ->
  size_outcome fs (device args) = Raise OSError ->
  let f := virtual_size_file (device args) in
  resolve_size fs args w =
  (Raise (UnboundLocalError (if is_auto (width args) then "width" else "height")),
   World (now w)
         ((trace w ++ [EvOpen f]) ++ [EvLog WARNING "Could not read %s" [VStr f]])).
Proof.
  intros Hauto Hout. unfold resolve_size. rewrite Hauto.
  unfold try_except_OSError. run_m.
  rewrite read_virtual_size_eq, Hout. simpl.
  destruct (is_auto (width args)) eqn:Ew; simpl; [reflexivity|].
  simpl in Hauto. now rewrite Hauto.
Qed.

Lemma resolve_size_malformed fs args w :
  is_auto (width args) || is_auto (height args) = true ->
  size_outcome fs (device args) = Raise ValueError ->
  resolve_size fs args w =
  (Raise ValueError,
   World (now w) (trace w ++ [EvOpen (virtual_size_file (device args))])).
Proof.
  intros Hauto Hout. unfold resolve_size. rewrite Hauto.
  unfold try_except_OSError. run_m.
  now rewrite read_virtual_size_eq, Hout.
Qed.

Lemma size_outcome_cases fs dev :
  (exists wd ht, size_outcome fs dev = Ok (wd, ht))
  \/ size_outcome fs dev = Raise OSError
  \/ size_outcome fs dev = Raise ValueError.
Proof.
  unfold size_outcome.
  destruct (fs (virtual_size_file dev)) as [| |txt]; auto.
  destruct (ints_of (split_comma txt)) as [[|a [|b [|c l]]]|]; eauto.
Qed.

(** Whatever happens, the size step opens [virtual_size] once when a field
    is ['auto'] and not at all otherwise, and opens nothing else. *)
Lemma resolve_size_reads fs args w path :
  reads_of path (trace (snd (resolve_size fs args w))) =
  (reads_of path (trace w) +
   (if is_auto (width args) || is_auto (height args)
    then reads_of path [EvOpen (virtual_size_file (device args))]
    else 0))%nat.
Proof.
  destruct (is_auto (width args) || is_auto (height args)) eqn:Hauto.
  - destruct (size_outcome_cases fs (device args)) as [(wd & ht & H)|[H|H]].
    + rewrite (resolve_size_parsed _ _ _ _ _ Hauto H). simpl.
      apply reads_of_app.
    + rewrite (resolve_size_unreadable _ _ _ Hauto H). simpl.
      rewrite !reads_of_app. unfold reads_of at 3. rewrite count_cons. simpl.
      rewrite count_nil. lia.
    + rewrite (resolve_size_malformed _ _ _ Hauto H). simpl.
      apply reads_of_app.
  - rewrite (resolve_size_explicit _ _ _ Hauto). simpl. lia.
Qed.

(** The depth step. *)
Lemma resolve_depth_explicit fs args w :
  is_auto (depth args) = false -> resolve_depth fs args w = (Ok args, w).
Proof. intros H. unfold resolve_depth. now rewrite H. Qed.

Lemma resolve_depth_parsed fs args w txt d :
  is_auto (depth args) = true ->
  fs (bits_per_pixel_file (device args)) = FileText txt ->
  py_int (first_two txt) = Some d ->
  resolve_depth fs args w =
  (Ok (set_depth (VInt d) args),
   World (now w) (trace w ++ [EvOpen (bits_per_pixel_file (device args))])).
Proof.
  intros Hauto Hfs Hint. unfold resolve_depth. rewrite Hauto.
  unfold try_except_OSError, open_read, int_or_raise. run_m.
  now rewrite Hfs, Hint.
Qed.

Lemma resolve_depth_unreadable fs args w :
  is_auto (depth args) = true ->
  fs (bits_per_pixel_file (device args)) = FileOSError ->
  let f := bits_per_pixel_file (device args) in
  resolve_depth fs args w =
  (Ok args,
   World (now w)
         ((trace w ++ [EvOpen f]) ++ [EvLog WARNING "Could not read %s" [VStr f]])).
Proof.
  intros Hauto Hfs. unfold resolve_depth. rewrite Hauto.
  unfold try_except_OSError, open_read, int_or_raise. run_m.
  now rewrite Hfs.
Qed.

Lemma resolve_depth_malformed fs args w :
  is_auto (depth args) = true ->
  (fs (bits_per_pixel_file (device args)) = FileUndecodable
   \/ exists txt, fs (bits_per_pixel_file (device args)) = FileText txt
                  /\ py_int (first_two txt) = None) ->
  resolve_depth fs args w =
  (Raise ValueError,
   World (now w) (trace w ++ [EvOpen (bits_per_pixel_file (device args))])).
Proof.
  intros Hauto Hfs. unfold resolve_depth. rewrite Hauto.
  unfold try_except_OSError, open_read, int_or_raise. run_m.
  destruct Hfs as [Hfs|(txt & Hfs & Hint)]; rewrite Hfs; [reflexivity|].
  simpl. now rewrite Hint.
Qed.

Lemma resolve_depth_reads fs args w path :
  reads_of path (trace (snd (resolve_depth fs args w))) =
  (reads_of path (trace w) +
   (if is_auto (depth args)
    then reads_of path [EvOpen (bits_per_pixel_file (device args))]
    else 0))%nat.
Proof.
  destruct (is_auto (depth args)) eqn:Hauto.
  - destruct (fs (bits_per_pixel_file (device args))) as [| |txt] eqn:Hfs.
    + rewrite (resolve_depth_unreadable _ _ _ Hauto Hfs). simpl.
      rewrite !reads_of_app. unfold reads_of at 3. rewrite count_cons. simpl.
      rewrite count_nil. lia.
    + rewrite (resolve_depth_malformed _ _ _ Hauto (or_introl Hfs)). simpl.
      apply reads_of_app.
    + destruct (py_int (first_two txt)) as [d|] eqn:Hint.
      * rewrite (resolve_depth_parsed _ _ _ _ _ Hauto Hfs Hint). simpl.
        apply reads_of_app.
      * rewrite (resolve_depth_malformed _ args w Hauto).
        -- simpl. apply reads_of_app.
        -- right. eauto.
  - rewrite (resolve_depth_explicit _ _ _ Hauto). simpl. lia.
Qed.

Lemma is_auto_true v : is_auto v = true -> v = AUTO.
Proof.
  destruct v as [s|z]; simpl; [|discriminate].
  intros H. apply String.eqb_eq in H. now subst.
Qed.

(** A size step that completes touches only the fields that were ['auto'],
    and those receive integers. *)
Lemma resolve_size_ok fs args w a1 w1 :
  resolve_size fs args w = (Ok a1, w1) ->
  device a1 = device args /\ depth a1 = depth args
  /\ minthreads a1 = minthreads args /\ maxthreads a1 = maxthreads args
  /\ (if is_auto (width args) then exists z, width a1 = VInt z
      else width a1 = width args)
  /\ (if is_auto (height args) then exists z, height a1 = VInt z
      else height a1 = height args).
Proof.
  intros H.
  destruct (is_auto (width args) || is_auto (height args)) eqn:Hauto.
  - destruct (size_outcome_cases fs (device args)) as [(wd & ht & Ho)|[Ho|Ho]].
    + rewrite (resolve_size_parsed _ _ _ _ _ Hauto Ho) in H.
      injection H as <- _.
      destruct (is_auto (width args)), (is_auto (height args)); simpl; eauto 10.
    + rewrite (resolve_size_unreadable _ _ _ Hauto Ho) in H. discriminate.
    + rewrite (resolve_size_malformed _ _ _ Hauto Ho) in H. discriminate.
  - rewrite (resolve_size_explicit _ _ _ Hauto) in H. injection H as <- _.
    apply orb_false_elim in Hauto as [-> ->]. auto 10.
Qed.

Lemma resolve_geometry_eq fs args w :
  resolve_geometry fs args w =
  match resolve_size fs args
          (World (now w)
             (trace w ++ [EvLog DEBUG "sysfs_path: %s"
                                [VStr (sysfs_path (device args))]])) with
  | (Ok a1, w1) => resolve_depth fs a1 w1
  | (Raise e, w1) => (Raise e, w1)
  end.
Proof. reflexivity. Qed.

Lemma reads_of_log path lvl fmt a : reads_of path [EvLog lvl fmt a] = 0%nat.
Proof. reflexivity. Qed.

Lemma reads_of_open_self path : reads_of path [EvOpen path] = 1%nat.
Proof.
  unfold reads_of. rewrite count_cons, is_open_of_self. reflexivity.
Qed.

Lemma reads_of_open_other p q : q <> p -> reads_of p [EvOpen q] = 0%nat.
Proof.
  intros H. unfold reads_of. rewrite count_cons, is_open_of_other by assumption.
  reflexivity.
Qed.

(** The checks before the resolution leave no trace when they pass. *)
Lemma validate_ok args w w' :
  validate args w = (Ok tt, w') ->
  w' = w /\ device args <> EmptyString /\ int_of (minthreads args) <> None
  /\ int_of (maxthreads args) <> None.
Proof.
  unfold validate, int_or_raise, isinstance_int. run_m.
  destruct (String.eqb (device args) EmptyString) eqn:Ed; simpl;
    destruct (int_of (minthreads args)); simpl; try discriminate;
    destruct (int_of (maxthreads args)); simpl; try discriminate.
  intros H. injection H as <-. apply String.eqb_neq in Ed.
  repeat split; auto; discriminate.
Qed.

Lemma check_args_ok fs args w args' w' :
  check_args fs args w = (Ok args', w') ->
  validate args w = (Ok tt, w) /\ resolve_geometry fs args w = (Ok args', w').
Proof.
  unfold check_args. run_m.
  destruct (validate args w) as [[[]|e] w0] eqn:Hv; [|discriminate].
  intros H. destruct (validate_ok _ _ _ Hv) as (-> & _). auto.
Qed.

(** The opens of a whole resolution: the size descriptor when a size field
    is ['auto'], then, if the size step completed, the depth descriptor when
    the depth is ['auto']. *)
Lemma resolve_geometry_reads fs args w path :
  let w0 := World (now w)
              (trace w ++ [EvLog DEBUG "sysfs_path: %s"
                                 [VStr (sysfs_path (device args))]]) in
  reads_of path (trace (snd (resolve_geometry fs args w))) =
  (reads_of path (trace w)
   + (if is_auto (width args) || is_auto (height args)
      then reads_of path [EvOpen (virtual_size_file (device args))] else 0)
   + (match fst (resolve_size fs args w0) with
      | Ok _ => if is_auto (depth args)
                then reads_of path [EvOpen (bits_per_pixel_file (device args))]
                else 0
      | Raise _ => 0
      end))%nat.
Proof.
  intros w0. rewrite resolve_geometry_eq. fold w0.
  pose proof (resolve_size_reads fs args w0 path) as Hs.
  destruct (resolve_size fs args w0) as [[a1|e] w1] eqn:E; simpl in *.
  - rewrite resolve_depth_reads, Hs.
    destruct (resolve_size_ok _ _ _ _ _ E) as (-> & -> & _).
    unfold w0. simpl. rewrite reads_of_app, reads_of_log. lia.
  - rewrite Hs. unfold w0. simpl. rewrite reads_of_app, reads_of_log. lia.
Qed.

(** ** Geometry resolution *)











(** ** Scanning a chunk for a marker *)

Lemma no_common_tail_l p pat s : no_common (p :: pat) s = true -> no_common pat s = true.
Proof. unfold no_common. simpl. intros H. now apply andb_prop in H. Qed.

Lemma no_common_tail_r pat y s : no_common pat (y :: s) = true -> no_common pat s = true.
Proof.
  unfold no_common. induction pat as [|p pat IH]; simpl; [reflexivity|].
  intros H. apply andb_prop in H as [H1 H2].
  rewrite (IH H2), andb_true_r.
  apply negb_true_iff in H1. apply orb_false_elim in H1 as [_ H1].
  now rewrite H1.
Qed.

Lemma no_common_heads p pat y s : no_common (p :: pat) (y :: s) = true -> Byte.eqb p y = false.
Proof.
  unfold no_common. simpl. intros H. apply andb_prop in H as [H _].
  apply negb_true_iff in H. now apply orb_false_elim in H.
Qed.

(** A marker that shares no byte with what follows cannot run into it. *)
Lemma starts_with_app_no_common (l pat s : bytes) :
  pat <> [] -> no_common pat s = true ->
  starts_with pat (l ++ s) = starts_with pat l.
Proof.
  revert pat. induction l as [|x l IH]; intros [|p pat] Hne Hnc;
    try congruence; simpl.
  - destruct s as [|y s]; [reflexivity|].
    now rewrite (no_common_heads _ _ _ _ Hnc).
  - destruct pat as [|p' pat'].
    + reflexivity.
    + rewrite IH; [reflexivity|discriminate|].
      now apply no_common_tail_l in Hnc.
Qed.

Lemma occurrences_no_common (pat s : bytes) :
  pat <> [] -> no_common pat s = true -> occurrences pat s = 0%nat.
Proof.
  intros Hne. induction s as [|y s IH]; intros Hnc.
  - destruct pat; [congruence|reflexivity].
  - destruct pat as [|p pat]; [congruence|].
    cbn [occurrences starts_with]. rewrite (no_common_heads _ _ _ _ Hnc).
    simpl. apply IH. now apply no_common_tail_r in Hnc.
Qed.

Lemma occurrences_app_no_common (pat l s : bytes) :
  pat <> [] -> no_common pat s = true ->
  occurrences pat (l ++ s) = occurrences pat l.
Proof.
  intros Hne Hnc. induction l as [|x l IH].
  - simpl. rewrite occurrences_no_common by assumption.
    destruct pat; [congruence|reflexivity].
  - change ((x :: l) ++ s) with (x :: (l ++ s)).
    cbn [occurrences].
    change (x :: (l ++ s)) with ((x :: l) ++ s).
    now rewrite starts_with_app_no_common, IH.
Qed.

(** The fixed head of a chunk holds each marker once, and no marker can
    begin in the head and end in what follows it. *)
Lemma occurrences_boundary_head (rest : bytes) :
  occurrences BOUNDARY (CHUNK_HEAD ++ rest) = S (occurrences BOUNDARY rest).
Proof. vm_compute. reflexivity. Qed.

Lemma occurrences_header_head (rest : bytes) :
  occurrences PART_HEADER (CHUNK_HEAD ++ rest) = S (occurrences PART_HEADER rest).
Proof. vm_compute. reflexivity. Qed.

(** ** One pass of the generator *)

Lemma gen_next_live png (g : generator) (tk : tick) (w : world) :
  g_status g <> GenClosed ->
  let w1 := World (now w + (TICK_MS + overrun tk) + work tk)%N
                  (trace w ++ [EvSleep TICK_MS]) in
  gen_next png g tk w =
  match png (width (g_params g)) (height (g_params g)) (g_nda g) (pixels tk) with
  | Ok img =>
      let chunk := (CHUNK_HEAD ++ img) ++ CRLF in
      (Ok chunk, set_status GenSuspended g,
       World (now w1) (trace w1 ++ [EvYield chunk]))
  | Raise e => (Raise e, set_status GenClosed g, w1)
  end.
Proof.
  intros Hlive. unfold gen_next, get_frame_pass. run_m.
  destruct (g_status g); try congruence;
    destruct (png _ _ _ _); reflexivity.
Qed.

Lemma gen_next_closed png (g : generator) (tk : tick) (w : world) :
  g_status g = GenClosed -> gen_next png g tk w = (Raise StopIteration, g, w).
Proof. intros H. unfold gen_next. now rewrite H. Qed.

(** A chunk comes out of a generator only by a pass of its loop. *)
Lemma gen_next_yields png g tk w c g' w' :
  gen_next png g tk w = (Ok c, g', w') ->
  exists img,
    png (width (g_params g)) (height (g_params g)) (g_nda g) (pixels tk) = Ok img
    /\ c = (CHUNK_HEAD ++ img) ++ CRLF
    /\ g' = set_status GenSuspended g
    /\ now w' = (now w + (TICK_MS + overrun tk) + work tk)%N
    /\ trace w' = trace w ++ [EvSleep TICK_MS; EvYield c].
Proof.
  intros H. destruct (gen_status_eq_dec (g_status g) GenClosed) as [Hc|Hl].
  - rewrite gen_next_closed in H by assumption. discriminate.
  - rewrite gen_next_live in H by assumption.
    destruct (png _ _ _ _) as [img|e]; [|discriminate].
    injection H as <- <- <-. exists img. simpl.
    rewrite <- app_assoc. auto.
Qed.

(** ** The frame generator *)

(** C1, as stated, fails on "no other": the image bytes go into the chunk
    as the encoder returned them, unescaped. When they hold the bytes of a
    part's head the chunk scans as two markers and two headers. *)
Lemma C1_marker_inside_image :
  exists c g' w',
    gen_next raw_encoder gen_detected tick_marker w_start = (Ok c, g', w')
    /\ occurrences BOUNDARY c = 2%nat
    /\ occurrences PART_HEADER c = 2%nat.
Proof. eexists _, _, _. vm_compute. auto. Qed.

(** C1, amended. Every chunk the generator yields is the marker [--frame],
    CRLF, the header [Content-Type: image/png], CRLF, an empty line, the
    bytes the encoder returned and a closing CRLF, and nothing else: scanning
    the chunk finds one marker and one header beyond those that lie wholly
    inside the image bytes, so exactly one of each when the image holds
    none. *)
Theorem C1_chunk_framing png (g g' : generator) (tk : tick) (w w' : world)
    (c : bytes) :
  gen_next png g tk w = (Ok c, g', w') ->
  exists img,
    png (width (g_params g)) (height (g_params g)) (g_nda g) (pixels tk) = Ok img
    /\ c = BOUNDARY ++ CRLF ++ PART_HEADER ++ CRLF ++ CRLF ++ img ++ CRLF
    /\ occurrences BOUNDARY c = S (occurrences BOUNDARY img)
    /\ occurrences PART_HEADER c = S (occurrences PART_HEADER img)
    /\ (occurrences BOUNDARY img = 0%nat -> occurrences BOUNDARY c = 1%nat)
    /\ (occurrences PART_HEADER img = 0%nat -> occurrences PART_HEADER c = 1%nat)
    /\ exists pre, trace w' = pre ++ [EvYield c].
Proof.
  intros H. destruct (gen_next_yields _ _ _ _ _ _ _ H)
    as (img & Himg & -> & _ & _ & Htr).
  assert (Hb : occurrences BOUNDARY ((CHUNK_HEAD ++ img) ++ CRLF)
               = S (occurrences BOUNDARY img)).
  { rewrite <- app_assoc, occurrences_boundary_head.
    now rewrite occurrences_app_no_common. }
  assert (Hh : occurrences PART_HEADER ((CHUNK_HEAD ++ img) ++ CRLF)
               = S (occurrences PART_HEADER img)).
  { rewrite <- app_assoc, occurrences_header_head.
    now rewrite occurrences_app_no_common. }
  exists img. split; [exact Himg|].
  split; [unfold CHUNK_HEAD; now rewrite <- !app_assoc|].
  split; [exact Hb|]. split; [exact Hh|].
  split; [intros Hz; now rewrite Hb, Hz|].
  split; [intros Hz; now rewrite Hh, Hz|].
  exists (trace w ++ [EvSleep TICK_MS]). rewrite Htr.
  apply (app_assoc (trace w) [_] [_]).
Qed.

Lemma C1_chunk_framing_witness :
  exists img,
    Ok (pixels tick_a) = Ok img
    /\ (CHUNK_HEAD ++ pixels tick_a) ++ CRLF
       = BOUNDARY ++ CRLF ++ PART_HEADER ++ CRLF ++ CRLF ++ img ++ CRLF
    /\ occurrences BOUNDARY ((CHUNK_HEAD ++ pixels tick_a) ++ CRLF)
       = S (occurrences BOUNDARY img)
    /\ occurrences PART_HEADER ((CHUNK_HEAD ++ pixels tick_a) ++ CRLF)
       = S (occurrences PART_HEADER img)
    /\ (occurrences BOUNDARY img = 0%nat ->
        occurrences BOUNDARY ((CHUNK_HEAD ++ pixels tick_a) ++ CRLF) = 1%nat)
    /\ (occurrences PART_HEADER img = 0%nat ->
        occurrences PART_HEADER ((CHUNK_HEAD ++ pixels tick_a) ++ CRLF) = 1%nat)
    /\ exists pre,
        [EvSleep TICK_MS; EvYield ((CHUNK_HEAD ++ pixels tick_a) ++ CRLF)]
        = pre ++ [EvYield ((CHUNK_HEAD ++ pixels tick_a) ++ CRLF)].
Proof.
  exact (C1_chunk_framing raw_encoder gen_detected _ tick_a w_start _ _ eq_refl).
Defined.

Lemma count_none f (tr : list event) :
  Forall (fun e => f e = false) tr -> count f tr = 0%nat.
Proof.
  induction 1 as [|e tr He _ IH]; [reflexivity|].
  now rewrite count_cons, He, IH.
Qed.

Lemma gen_next_trace png g tk w :
  exists ext,
    trace (snd (gen_next png g tk w)) = trace w ++ ext
    /\ Forall (fun e => is_gen_event e = true) ext.
Proof.
  destruct (gen_status_eq_dec (g_status g) GenClosed) as [Hc|Hl].
  - rewrite gen_next_closed by assumption. exists []. simpl.
    now rewrite app_nil_r.
  - rewrite gen_next_live by assumption.
    destruct (png _ _ _ _) as [img|e]; simpl.
    + eexists [_; _]. rewrite <- app_assoc. split; [reflexivity|].
      repeat constructor.
    + eexists [_]. split; [reflexivity|]. repeat constructor.
Qed.

Lemma pulls_cons png g w tk rest :
  pulls png g w (tk :: rest) =
  (fst (fst (gen_next png g tk (World (now w + idle tk)%N (trace w))))
     :: fst (fst (pulls png
                    (snd (fst (gen_next png g tk (World (now w + idle tk)%N (trace w)))))
                    (snd (gen_next png g tk (World (now w + idle tk)%N (trace w))))
                    rest)),
   snd (fst (pulls png
               (snd (fst (gen_next png g tk (World (now w + idle tk)%N (trace w)))))
               (snd (gen_next png g tk (World (now w + idle tk)%N (trace w))))
               rest)),
   snd (pulls png
          (snd (fst (gen_next png g tk (World (now w + idle tk)%N (trace w)))))
          (snd (gen_next png g tk (World (now w + idle tk)%N (trace w))))
          rest)).
Proof.
  simpl. destruct (gen_next _ _ _ _) as [[r g1] w1]. simpl.
  destruct (pulls _ _ _ _) as [[rs g2] w2]. reflexivity.
Qed.

Lemma pulls_trace png tks : forall g w,
  exists ext,
    trace (snd (pulls png g w tks)) = trace w ++ ext
    /\ Forall (fun e => is_gen_event e = true) ext.
Proof.
  induction tks as [|tk rest IH]; intros g w.
  - exists []. simpl. now rewrite app_nil_r.
  - rewrite pulls_cons. cbn [snd].
    destruct (gen_next_trace png g tk (World (now w + idle tk)%N (trace w)))
      as (e1 & H1 & F1).
    destruct (IH (snd (fst (gen_next png g tk (World (now w + idle tk)%N (trace w)))))
                 (snd (gen_next png g tk (World (now w + idle tk)%N (trace w)))))
      as (e2 & H2 & F2).
    exists (e1 ++ e2). rewrite H2, H1. simpl. rewrite <- app_assoc.
    split; [reflexivity|]. now apply Forall_app.
Qed.

(** C5. In a run of requests that all yield a chunk, every chunk, the first
    included, comes right after a sleep of one tick: the trace grows by a
    sleep and a yield per chunk, and the clock at chunk [n] is at least one
    tick (100 ms) past the clock at chunk [n-1], or past the start of the
    run for [n = 0]. *)
Theorem C5_pacing png (tks : list tick) :
  forall (g : generator) (w : world) (cs : list bytes),
    fst (fst (pulls png g w tks)) = map Ok cs ->
    trace (snd (pulls png g w tks))
      = trace w ++ flat_map (fun c => [EvSleep 100; EvYield c]) cs
    /\ forall (n : nat) (t : N),
        pull_clocks png g w tks !! n = Some t ->
        (instant_before (now w) (pull_clocks png g w tks) n + 100 <= t)%N.
Proof.
  induction tks as [|tk rest IH]; intros g w cs Hrs.
  - destruct cs; [|discriminate]. simpl. rewrite app_nil_r.
    split; [reflexivity|]. intros n t H. destruct n; discriminate.
  - rewrite pulls_cons in Hrs |- *. cbn [fst snd] in Hrs |- *.
    destruct cs as [|c cs]; [discriminate|].
    simpl in Hrs. injection Hrs as Hr Hrest.
    cbn [pull_clocks].
    destruct (gen_next png g tk (World (now w + idle tk)%N (trace w)))
      as [[r g1] w1] eqn:E.
    simpl in Hr, Hrest |- *. subst r.
    destruct (gen_next_yields _ _ _ _ _ _ _ E) as (img & _ & _ & _ & Hnow & Htr).
    simpl in Hnow, Htr.
    destruct (IH g1 w1 cs Hrest) as (IHtr & IHclk).
    split.
    + rewrite IHtr, Htr, <- app_assoc. reflexivity.
    + intros [|n] t Hn; simpl in Hn.
      * injection Hn as <-. simpl. unfold TICK_MS in Hnow. lia.
      * specialize (IHclk n t Hn). destruct n as [|n]; simpl in *; exact IHclk.
Qed.

Lemma C5_pacing_witness :
  trace (snd (pulls raw_encoder gen_sized w_start [tick_a; tick_b]))
    = [EvSleep 100; EvYield ((CHUNK_HEAD ++ pixels tick_a) ++ CRLF);
       EvSleep 100; EvYield ((CHUNK_HEAD ++ pixels tick_b) ++ CRLF)]
  /\ (0 + 100 <= 111)%N /\ (111 + 100 <= 211)%N.
Proof.
  destruct (C5_pacing raw_encoder [tick_a; tick_b] gen_sized w_start
              [(CHUNK_HEAD ++ pixels tick_a) ++ CRLF;
               (CHUNK_HEAD ++ pixels tick_b) ++ CRLF] eq_refl) as (Htr & Hclk).
  split; [exact Htr|].
  split; [exact (Hclk 0%nat 111%N eq_refl)|exact (Hclk 1%nat 211%N eq_refl)].
Defined.

Lemma pulls_all_yield png (tks : list tick) :
  forall (g : generator) (w : world),
    g_status g <> GenClosed ->
    encodes png g tks ->
    exists cs,
      fst (fst (pulls png g w tks)) = map Ok cs
      /\ length cs = length tks
      /\ g_status (snd (fst (pulls png g w tks))) <> GenClosed.
Proof.
  induction tks as [|tk rest IH]; intros g w Hlive Henc.
  - exists []. auto.
  - rewrite pulls_cons. cbn [fst snd].
    apply Forall_cons in Henc as [(img & Himg) Hrest].
    rewrite gen_next_live by assumption. rewrite Himg. cbn [fst snd].
    destruct (IH (set_status GenSuspended g)
                 (World (now w + idle tk + (TICK_MS + overrun tk) + work tk)%N
                        ((trace w ++ [EvSleep TICK_MS])
                           ++ [EvYield ((CHUNK_HEAD ++ img) ++ CRLF)])))
      as (cs & Hcs & Hlen & Hst); [discriminate|exact Hrest|].
    exists (((CHUNK_HEAD ++ img) ++ CRLF) :: cs). simpl in *.
    rewrite Hcs, Hlen. auto.
Qed.

Lemma handle_request_fresh self t :
  handle_request self t None = fresh_conn self t.
Proof. reflexivity. Qed.

(** C6. The generator of a connection never runs out: as long as the encoder
    accepts the mapped memory, any number of requests for the next chunk all
    yield one and leave the generator open.  Every accepted request gets a
    new generator in its unstarted state with a trace of its own, whatever
    connections exist; it leaves the existing connections as they are, and
    asking one connection for a chunk changes no other connection. *)
Theorem C6_unending_and_fresh png :
  (forall (self : Bottle) (t : N) (g : generator) (tks : list tick),
      c_gen (handle_request self t None) = Some g ->
      encodes png g tks ->
      exists cs,
        fst (fst (pulls png g (c_world (handle_request self t None)) tks))
          = map Ok cs
        /\ length cs = length tks
        /\ g_status (snd (fst (pulls png g
                                 (c_world (handle_request self t None)) tks)))
           <> GenClosed)
  /\ (forall (s : server) (t : N),
        srv_conns (step png s (Request t None))
        = srv_conns s ++ [fresh_conn (srv_app s) t])
  /\ (forall (s : server) (t : N) (mm : option exn) (j : nat),
        (j < length (srv_conns s))%nat ->
        srv_conns (step png s (Request t mm)) !! j = srv_conns s !! j)
  /\ (forall (s : server) (c j : nat) (tk : tick),
        j <> c ->
        srv_conns (step png s (Pull c tk)) !! j = srv_conns s !! j).
Proof.
  repeat split.
  - intros self t g tks Hg Henc.
    rewrite handle_request_fresh in Hg. injection Hg as <-.
    apply pulls_all_yield; [discriminate|exact Henc].
  - intros s t mm j Hj. simpl. now apply lookup_app_l.
  - intros s c j tk Hne. simpl.
    destruct (srv_conns s !! c) as [cn|] eqn:E; [|reflexivity].
    simpl. now apply list_lookup_insert_ne.
Qed.

Lemma C6_unending_and_fresh_witness :
  exists cs,
    fst (fst (pulls raw_encoder gen_sized
                (c_world (handle_request app_sized 5 None))
                [tick_a; tick_b; tick_a]))
      = map Ok cs
    /\ length cs = 3%nat
    /\ g_status (snd (fst (pulls raw_encoder gen_sized
                             (c_world (handle_request app_sized 5 None))
                             [tick_a; tick_b; tick_a])))
       <> GenClosed.
Proof.
  refine (proj1 (C6_unending_and_fresh raw_encoder) app_sized 5%N gen_sized
                [tick_a; tick_b; tick_a] eq_refl _).
  repeat constructor; eexists; reflexivity.
Defined.

Lemma gen_event_not_header (ext : list event) :
  Forall (fun e => is_gen_event e = true) ext ->
  Forall (fun e => is_set_content_type e = false) ext.
Proof.
  intros H. eapply Forall_impl; [exact H|].
  intros []; simpl; congruence.
Qed.

Lemma gen_event_not_memmap (ext : list event) :
  Forall (fun e => is_gen_event e = true) ext ->
  Forall (fun e => is_memmap e = false) ext.
Proof.
  intros H. eapply Forall_impl; [exact H|].
  intros []; simpl; congruence.
Qed.

(** C7, as stated, fails for the connections whose mapping fails:
    [numpy.memmap] is the first statement of the route callback, and when it
    raises the header is never set. This is what becomes of a request when
    the geometry was given as text, which [numpy.memmap] rejects as a
    shape. *)
Lemma C7_failed_mapping_sets_no_header :
  count is_set_content_type
        (trace (c_world (handle_request app_sized 0 (Some LibraryError))))
  = 0%nat
  /\ c_gen (handle_request app_sized 0 (Some LibraryError)) = None.
Proof. split; reflexivity. Qed.

(** C7, amended. A connection whose mapping succeeds has its response
    header [Content-Type] set to [multipart/x-mixed-replace; boundary=frame]
    by the route callback, ahead of everything its generator does: however
    many chunks are asked for, the connection's trace holds that one setting
    of the header and no chunk comes before it. A connection whose mapping
    raises has the header set not at all, and gets no generator and no
    chunk, however often it is asked. The header's boundary [frame] is the
    one the chunk marker [--frame] is built from. *)
Theorem C7_content_type_once png (self : Bottle) (t : N) (tks : list tick) :
  (exists (g : generator) (m : event) (post : list event),
      c_gen (handle_request self t None) = Some g
      /\ trace (snd (pulls png g (c_world (handle_request self t None)) tks))
         = m :: EvSetHeader "Content-Type"
                  ("multipart/x-mixed-replace; boundary=" +:+ "frame") :: post
      /\ is_yield m = false
      /\ count is_set_content_type post = 0%nat
      /\ count is_set_content_type
           (trace (snd (pulls png g (c_world (handle_request self t None)) tks)))
         = 1%nat)
  /\ (forall (e : exn) (tk : tick),
        c_gen (handle_request self t (Some e)) = None
        /\ pull png (handle_request self t (Some e)) tk
           = handle_request self t (Some e)
        /\ count is_set_content_type
                 (trace (c_world (handle_request self t (Some e)))) = 0%nat
        /\ count is_yield
                 (trace (c_world (handle_request self t (Some e)))) = 0%nat)
  /\ BOUNDARY = list_byte_of_string ("--" +:+ "frame").
Proof.
  split; [|split; [|reflexivity]].
  - rewrite handle_request_fresh. unfold fresh_conn. cbn [c_gen c_world].
    eexists _, _.
    match goal with
    | |- context [pulls png ?g ?w tks] =>
        destruct (pulls_trace png tks g w) as (ext & Htr & Hext)
    end.
    exists ext. split; [reflexivity|]. rewrite Htr. cbn [trace].
    pose proof (count_none _ _ (gen_event_not_header _ Hext)) as Hz.
    repeat split; try assumption.
    change (?a :: ?b :: ext) with ([a; b] ++ ext).
    rewrite count_app, Hz. reflexivity.
  - intros e tk. repeat split.
Qed.

(** ** The device mapping *)

(** C8, as stated, fails: the route callback maps the device anew for every
    request, so two connections, here to a server whose geometry was read
    from the descriptors, make two mappings in one process, each generator
    holding its own. *)
Lemma C8_two_connections_two_mappings :
  mappings_of (serve raw_encoder {| srv_app := app_detected; srv_conns := [] |}
                     [Request 0 None; Pull 0 tick_a; Request 50 None]) = 2%nat
  /\ ~ (mappings_of (serve raw_encoder
                           {| srv_app := app_detected; srv_conns := [] |}
                           [Request 0 None; Pull 0 tick_a; Request 50 None])
        <= 1)%nat.
Proof. split; [reflexivity|]. vm_compute. lia. Qed.

Lemma handle_request_mapped_once self t mm : mapped_once self (handle_request self t mm).
Proof.
  unfold mapped_once, handle_request, stream. run_m.
  destruct mm as [e|]; simpl; eexists; split; reflexivity.
Qed.

Lemma pull_mapped_once png self cn tk :
  mapped_once self cn -> mapped_once self (pull png cn tk).
Proof.
  intros (rest & Htr & Hz). unfold pull.
  destruct (c_gen cn) as [g|]; [|exists rest; auto].
  destruct (pulls_trace png [tk] g (c_world cn)) as (ext & Hext & Hgen).
  destruct (pulls png g (c_world cn) [tk]) as [[r g'] w'].
  unfold mapped_once. simpl in Hext |- *.
  exists (rest ++ ext). rewrite Hext, Htr.
  split; [reflexivity|].
  rewrite count_app, Hz.
  now rewrite (count_none _ _ (gen_event_not_memmap _ Hgen)).
Qed.

Lemma handle_request_own_mapping self t mm :
  own_mapping self (handle_request self t mm)
  /\ has_mapping (handle_request self t mm)
     = match mm with None => true | Some _ => false end.
Proof.
  unfold own_mapping, handle_request, stream. run_m.
  destruct mm as [e|]; simpl; split; try reflexivity.
  - discriminate.
  - intros g Hg. now injection Hg as <-.
Qed.

Lemma gen_next_nda png g tk w :
  g_nda (snd (fst (gen_next png g tk w))) = g_nda g.
Proof.
  unfold gen_next.
  destruct (g_status g); try reflexivity;
    destruct (get_frame_pass png (g_params g) (g_nda g) tk w) as [[c|e] w'];
    reflexivity.
Qed.

Lemma pull_own_mapping png self cn tk :
  own_mapping self cn ->
  own_mapping self (pull png cn tk)
  /\ has_mapping (pull png cn tk) = has_mapping cn.
Proof.
  intros Hown. unfold pull, has_mapping.
  destruct (c_gen cn) as [g|] eqn:Eg; [|rewrite Eg; auto].
  pose proof (gen_next_nda png g tk (World (now (c_world cn) + idle tk)%N
                                          (trace (c_world cn)))) as Hn.
  cbn [pulls].
  destruct (gen_next png g tk _) as [[r g1] w1]. simpl in Hn |- *.
  split; [|reflexivity].
  intros g' Hg'. injection Hg' as <-. rewrite Hn. now apply Hown.
Qed.

Lemma sum_list_insert_same {A : Type} (f : A -> nat) (l : list A) (c : nat)
    (x y : A) :
  l !! c = Some x -> f y = f x ->
  sum_list (map f (<[c := y]> l)) = sum_list (map f l).
Proof.
  revert c. induction l as [|a l IH]; intros [|c] Hl Hf; simpl in *;
    try discriminate.
  - injection Hl as ->. now rewrite Hf.
  - now rewrite (IH c Hl Hf).
Qed.

Lemma sum_list_map_snoc {A : Type} (f : A -> nat) (l : list A) (x : A) :
  sum_list (map f (l ++ [x])) = (sum_list (map f l) + f x)%nat.
Proof. induction l as [|a l IH]; simpl; lia. Qed.

Lemma step_mapped_once png self s a :
  srv_app s = self ->
  Forall (fun cn => mapped_once self cn /\ own_mapping self cn) (srv_conns s) ->
  srv_app (step png s a) = self
  /\ Forall (fun cn => mapped_once self cn /\ own_mapping self cn)
            (srv_conns (step png s a))
  /\ length (srv_conns (step png s a))
     = (length (srv_conns s) + requests_in [a])%nat
  /\ mappings_of (step png s a)
     = (mappings_of s + mapped_requests_in [a])%nat.
Proof.
  intros Happ Hall. destruct a as [t mm|c tk]; simpl.
  - destruct (handle_request_own_mapping self t mm) as (Hown & Hhas).
    split; [assumption|]. split; [|split].
    + apply Forall_app. split; [assumption|].
      constructor; [|constructor]. rewrite Happ.
      split; [apply handle_request_mapped_once|exact Hown].
    + now rewrite length_app.
    + unfold mappings_of. cbn [srv_conns]. rewrite sum_list_map_snoc.
      rewrite Happ, Hhas. destruct mm; reflexivity.
  - destruct (srv_conns s !! c) as [cn|] eqn:E; simpl.
    + destruct (proj1 (Forall_lookup _ _) Hall c cn E) as (Hm & Hown).
      destruct (pull_own_mapping png self cn tk Hown) as (Hown' & Hhas).
      split; [assumption|]. split; [|split].
      * apply Forall_insert; [assumption|].
        split; [now apply pull_mapped_once|exact Hown'].
      * rewrite length_insert. lia.
      * unfold mappings_of. simpl.
        rewrite (sum_list_insert_same _ _ _ cn) by (try assumption; now rewrite Hhas).
        lia.
    + split; [assumption|]. split; [assumption|]. split; lia.
Qed.

Lemma mapped_requests_in_cons a acts :
  mapped_requests_in (a :: acts)
  = (mapped_requests_in [a] + mapped_requests_in acts)%nat.
Proof. destruct a as [t [e|]|c tk]; reflexivity. Qed.

Lemma serve_mapped_once png self acts : forall s,
  srv_app s = self ->
  Forall (fun cn => mapped_once self cn /\ own_mapping self cn) (srv_conns s) ->
  Forall (fun cn => mapped_once self cn /\ own_mapping self cn)
         (srv_conns (serve png s acts))
  /\ length (srv_conns (serve png s acts))
     = (length (srv_conns s) + requests_in acts)%nat
  /\ mappings_of (serve png s acts)
     = (mappings_of s + mapped_requests_in acts)%nat.
Proof.
  induction acts as [|a acts IH]; intros s Happ Hall.
  - simpl. split; [assumption|]. split; lia.
  - destruct (step_mapped_once png self s a Happ Hall)
      as (Happ' & Hall' & Hlen & Hmap).
    destruct (IH _ Happ' Hall') as (H1 & H2 & H3).
    change (serve png s (a :: acts)) with (serve png (step png s a) acts).
    split; [assumption|]. split.
    + rewrite H2, Hlen. destruct a; simpl; lia.
    + rewrite H3, Hmap, (mapped_requests_in_cons a acts). lia.
Qed.

Lemma memmaps_of_mapped_once self (conns : list conn) :
  Forall (fun cn => mapped_once self cn /\ own_mapping self cn) conns ->
  sum_list (map (fun cn => count is_memmap (trace (c_world cn))) conns)
  = length conns.
Proof.
  induction 1 as [|cn conns ((rest & Htr & Hz) & _) _ IH]; [reflexivity|].
  simpl. rewrite IH, Htr, count_cons, Hz. reflexivity.
Qed.

(** C8, amended. The device is mapped read-only ([mode='r']) by every
    request for [/stream], in the worker serving it, and never again while
    that connection's chunks are produced. In any run of the server the
    regions mapped are as many as the requests at which [numpy.memmap]
    returned, and the calls of [numpy.memmap] as many as the requests; every
    connection's trace begins with its own call and holds no other, and
    every generator reads the array its own request mapped. *)
Theorem C8_one_mapping_per_request png (self : Bottle) (acts : list action) :
  let s := serve png {| srv_app := self; srv_conns := [] |} acts in
  mappings_of s = mapped_requests_in acts
  /\ memmaps_of s = requests_in acts
  /\ length (srv_conns s) = requests_in acts
  /\ forall (c : nat) (cn : conn),
      srv_conns s !! c = Some cn ->
      (exists rest,
          trace (c_world cn)
          = EvMemmap ("/dev/" +:+ device (params self)) "uint16" "r"
                     (height (params self), width (params self),
                      depth (params self)) :: rest
          /\ count is_memmap rest = 0%nat)
      /\ forall g, c_gen cn = Some g ->
           g_nda g = {| map_file := "/dev/" +:+ device (params self);
                        map_dtype := "uint16"; map_mode := "r";
                        map_shape := (height (params self), width (params self),
                                      depth (params self)) |}.
Proof.
  intros s.
  destruct (serve_mapped_once png self acts
              {| srv_app := self; srv_conns := [] |} eq_refl (List.Forall_nil _))
    as (Hall & Hlen & Hmap).
  fold s in Hall, Hlen, Hmap. simpl in Hlen. cbn in Hmap.
  split; [|split; [|split]].
  - exact Hmap.
  - unfold memmaps_of. now rewrite (memmaps_of_mapped_once self).
  - exact Hlen.
  - intros c cn Hc. exact (proj1 (Forall_lookup _ _) Hall c cn Hc).
Qed.

Lemma C8_one_mapping_per_request_witness :
  (exists rest,
      [EvMemmap "/dev/fb1" "uint16" "r" (VInt 240, VInt 320, VInt 16);
       EvSetHeader "Content-Type" "multipart/x-mixed-replace; boundary=frame"]
      = EvMemmap ("/dev/" +:+ "fb1") "uint16" "r" (VInt 240, VInt 320, VInt 16)
          :: rest
      /\ count is_memmap rest = 0%nat)
  /\ g_nda gen_detected
     = {| map_file := "/dev/" +:+ "fb1"; map_dtype := "uint16"; map_mode := "r";
          map_shape := (VInt 240, VInt 320, VInt 16) |}.
Proof.
  destruct (proj2 (proj2 (proj2 (C8_one_mapping_per_request raw_encoder
                                   app_detected
                                   [Request 0 None; Pull 0 tick_a;
                                    Request 50 None])))
                  1%nat _ eq_refl) as (H1 & H2).
  split; [exact H1|]. exact (H2 gen_detected eq_refl).
Defined.

(** ** Start-up *)

Lemma resolve_size_trace fs args w :
  exists ext,
    trace (snd (resolve_size fs args w)) = trace w ++ ext /\ config_only ext.
Proof.
  destruct (is_auto (width args) || is_auto (height args)) eqn:Hauto.
  - destruct (size_outcome_cases fs (device args)) as [(wd & ht & Ho)|[Ho|Ho]].
    + rewrite (resolve_size_parsed _ _ _ _ _ Hauto Ho). simpl.
      eexists [_]. split; [reflexivity|]. repeat constructor.
    + rewrite (resolve_size_unreadable _ _ _ Hauto Ho). simpl.
      eexists [_; _]. rewrite <- app_assoc. split; [reflexivity|].
      repeat constructor.
    + rewrite (resolve_size_malformed _ _ _ Hauto Ho). simpl.
      eexists [_]. split; [reflexivity|]. repeat constructor.
  - rewrite (resolve_size_explicit _ _ _ Hauto). exists []. simpl.
    rewrite app_nil_r. split; [reflexivity|constructor].
Qed.

Lemma resolve_depth_trace fs args w :
  exists ext,
    trace (snd (resolve_depth fs args w)) = trace w ++ ext /\ config_only ext.
Proof.
  destruct (is_auto (depth args)) eqn:Hauto.
  - destruct (fs (bits_per_pixel_file (device args))) as [| |txt] eqn:Hfs.
    + rewrite (resolve_depth_unreadable _ _ _ Hauto Hfs). simpl.
      eexists [_; _]. rewrite <- app_assoc. split; [reflexivity|].
      repeat constructor.
    + rewrite (resolve_depth_malformed _ _ _ Hauto (or_introl Hfs)). simpl.
      eexists [_]. split; [reflexivity|]. repeat constructor.
    + destruct (py_int (first_two txt)) as [d|] eqn:Hint.
      * rewrite (resolve_depth_parsed _ _ _ _ _ Hauto Hfs Hint). simpl.
        eexists [_]. split; [reflexivity|]. repeat constructor.
      * rewrite (resolve_depth_malformed _ args w Hauto); [|right; eauto].
        simpl. eexists [_]. split; [reflexivity|]. repeat constructor.
  - rewrite (resolve_depth_explicit _ _ _ Hauto). exists []. simpl.
    rewrite app_nil_r. split; [reflexivity|constructor].
Qed.

Lemma resolve_geometry_trace fs args w :
  exists ext,
    trace (snd (resolve_geometry fs args w)) = trace w ++ ext /\ config_only ext.
Proof.
  rewrite resolve_geometry_eq.
  match goal with
  | |- context [resolve_size fs args ?w0] =>
      destruct (resolve_size_trace fs args w0) as (e1 & H1 & F1);
      destruct (resolve_size fs args w0) as [[a1|e] w1]
  end; simpl in H1.
  - destruct (resolve_depth_trace fs a1 w1) as (e2 & H2 & F2).
    eexists (_ :: e1 ++ e2). rewrite H2, H1, <- !app_assoc.
    split; [reflexivity|]. constructor; [reflexivity|].
    now apply Forall_app.
  - simpl. eexists (_ :: e1). rewrite H1, <- app_assoc.
    split; [reflexivity|]. now constructor.
Qed.

Lemma config_only_no_memmap tr : config_only tr -> count is_memmap tr = 0%nat.
Proof.
  intros H. apply count_none. eapply Forall_impl; [exact H|].
  intros []; simpl; congruence.
Qed.

Lemma listening_config_only tr rest :
  config_only tr -> listening (tr ++ rest) = listening rest.
Proof.
  induction 1 as [|e tr He _ IH]; [reflexivity|].
  destruct e; simpl in *; try discriminate; exact IH.
Qed.

Lemma StreamHandler_init_eq (prog : string) (lst : logging_state)
    (kwargs : Namespace) (w : world) :
  StreamHandler_init prog lst kwargs w
  = match fst (get_logger prog "StreamHandler" (log_level kwargs) lst) with
    | Ok _ =>
        (Ok {| params := kwargs; routes := [("GET", "/stream")] |},
         World (now w) (trace w ++ firstn 4 (after_check kwargs)))
    | Raise e => (Raise e, w)
    end.
Proof.
  unfold StreamHandler_init, route. run_m.
  destruct (fst (get_logger prog "StreamHandler" (log_level kwargs) lst));
    simpl; [|reflexivity].
  now rewrite <- !app_assoc.
Qed.

Lemma main_after_check prog lst fs merged args w w' :
  check_args fs merged w = (Ok args, w') ->
  main prog lst fs merged w
  = match fst (get_logger prog "StreamHandler" (log_level args) lst) with
    | Ok _ => (Ok tt, World (now w') (trace w' ++ after_check args))
    | Raise e => (Raise e, w')
    end.
Proof.
  intros H. unfold main, mbind, M_bind, bind. rewrite H, StreamHandler_init_eq.
  destruct (fst (get_logger prog "StreamHandler" (log_level args) lst));
    [|reflexivity].
  unfold try_finally_exiting, start_server. run_m.
  rewrite <- !app_assoc. reflexivity.
Qed.

Lemma stream_maps_first (self : Bottle) (mm : option exn) (w : world) :
  exists rest,
    trace (snd (stream self mm w))
    = trace w ++ EvMemmap ("/dev/" +:+ device (params self)) "uint16" "r"
                   (height (params self), width (params self),
                    depth (params self)) :: rest.
Proof.
  unfold stream. run_m. destruct mm as [e|]; simpl.
  - exists []. reflexivity.
  - eexists [_]. rewrite <- app_assoc. reflexivity.
Qed.

(** C4, as stated, fails: with the sizes given and [bits_per_pixel]
    unreadable, argument checking returns with the depth still ['auto'], and
    start-up goes on to signal readiness and to start the server. *)
Lemma C4_unresolved_depth_still_serves :
  (exists w, check_args sysfs_absent fb1_sized w_start = (Ok fb1_sized, w))
  /\ depth fb1_sized = AUTO
  /\ In (EvNotify "READY=1")
        (startup_trace "fbstream" (loggers_after_config "fbstream" false)
                       sysfs_absent fb1_sized)
  /\ listening (startup_trace "fbstream" (loggers_after_config "fbstream" false)
                              sysfs_absent fb1_sized)
     = Some ("0.0.0.0", 8808).
Proof.
  split; [eexists; vm_compute; reflexivity|]. split; [reflexivity|].
  split; [vm_compute; tauto|vm_compute; reflexivity].
Qed.

(** C4, amended. Start-up never opens the frame source. Whenever argument
    checking returns, with all geometry fields resolved or not, and the
    handler then gets its logger, [main] registers the route, signals
    readiness and starts the server, and maps nothing; when [get_logger]
    raises instead (a level [setLevel] rejects), [main] ends there with that
    exception, before the route and the readiness signal, and has mapped
    nothing either. The device is mapped by the route callback, when a
    request for the stream arrives, with the geometry fields as argument
    checking left them. *)
Theorem C4_startup_maps_nothing (prog : string) (lst : logging_state)
    (fs : filesystem) (merged args : Namespace) (w : world) :
  check_args fs merged w_start = (Ok args, w) ->
  (forall ref,
      fst (get_logger prog "StreamHandler" (log_level args) lst) = Ok ref ->
      startup_trace prog lst fs merged = trace w ++ after_check args)
  /\ (forall e,
        fst (get_logger prog "StreamHandler" (log_level args) lst) = Raise e ->
        main prog lst fs merged w_start = (Raise e, w))
  /\ count is_memmap (startup_trace prog lst fs merged) = 0%nat
  /\ forall (mm : option exn) (wx : world),
      exists rest,
        trace (snd (stream {| params := args; routes := [("GET", "/stream")] |}
                           mm wx))
        = trace wx ++ EvMemmap ("/dev/" +:+ device args) "uint16" "r"
                        (height args, width args, depth args) :: rest.
Proof.
  intros H.
  pose proof (main_after_check prog lst fs merged args (World 0 []) w H) as Hm.
  assert (Hw : count is_memmap (trace w) = 0%nat).
  { destruct (check_args_ok _ _ _ _ _ H) as (_ & Hg).
    destruct (resolve_geometry_trace fs merged w_start) as (ext & Hext & Hcfg).
    rewrite Hg in Hext. simpl in Hext. rewrite Hext.
    now rewrite (config_only_no_memmap _ Hcfg). }
  split; [|split; [|split]].
  - intros ref Hl. unfold startup_trace. rewrite Hm, Hl. reflexivity.
  - intros e Hl. change w_start with (World 0 []). rewrite Hm, Hl. reflexivity.
  - unfold startup_trace. rewrite Hm.
    destruct (fst (get_logger prog "StreamHandler" (log_level args) lst));
      cbn [snd trace]; [|exact Hw].
    rewrite count_app, Hw. reflexivity.
  - intros mm wx.
    exact (stream_maps_first {| params := args; routes := [("GET", "/stream")] |}
                             mm wx).
Qed.

(** Two start-ups: the sizes given and [bits_per_pixel] unreadable, where
    the server is started with the depth unresolved; and [--debug] with
    [log_level = 20] in the config file, where the constructor's
    [get_logger] finds no cached logger under the program's name and
    [setLevel('20')] raises. *)
Lemma C4_startup_maps_nothing_witness :
  startup_trace "fbstream" (loggers_after_config "fbstream" false)
                sysfs_absent fb1_sized
  = [EvLog DEBUG "sysfs_path: %s" [VStr "/sys/class/graphics/fb1/"];
     EvOpen "/sys/class/graphics/fb1/bits_per_pixel";
     EvLog WARNING "Could not read %s"
           [VStr "/sys/class/graphics/fb1/bits_per_pixel"]]
    ++ after_check fb1_sized
  /\ main "fbstream" (loggers_after_config "fbstream" true)
          sysfs_320_240_16 fb1_debug_level w_start
     = (Raise ValueError,
        World 0 [EvLog DEBUG "sysfs_path: %s" [VStr "/sys/class/graphics/fb1/"];
                 EvOpen "/sys/class/graphics/fb1/virtual_size";
                 EvOpen "/sys/class/graphics/fb1/bits_per_pixel"]).
Proof.
  split.
  - refine (proj1 (C4_startup_maps_nothing "fbstream"
                     (loggers_after_config "fbstream" false)
                     sysfs_absent fb1_sized fb1_sized
                     (World 0 [EvLog DEBUG "sysfs_path: %s"
                                     [VStr "/sys/class/graphics/fb1/"];
                               EvOpen "/sys/class/graphics/fb1/bits_per_pixel";
                               EvLog WARNING "Could not read %s"
                                     [VStr "/sys/class/graphics/fb1/bits_per_pixel"]])
                     _) "fbstream" _).
    + vm_compute. reflexivity.
    + vm_compute. reflexivity.
  - refine (proj1 (proj2 (C4_startup_maps_nothing "fbstream"
                     (loggers_after_config "fbstream" true)
                     sysfs_320_240_16 fb1_debug_level
                     (set_depth (VInt 16)
                        (set_height (VInt 240)
                           (set_width (VInt 320) fb1_debug_level)))
                     (World 0 [EvLog DEBUG "sysfs_path: %s"
                                     [VStr "/sys/class/graphics/fb1/"];
                               EvOpen "/sys/class/graphics/fb1/virtual_size";
                               EvOpen "/sys/class/graphics/fb1/bits_per_pixel"])
                     _)) ValueError _).
    + vm_compute. reflexivity.
    + vm_compute. reflexivity.
Defined.

(** C9, as stated, fails on the port: it is the constant [8808] in
    [start_server]. A config file that sets [port] to 9000 changes nothing,
    and no two applications are started on different ports. *)
Lemma C9_port_is_not_configurable :
  In ("port", VStr "9000") (extra fb1_sized)
  /\ listening (startup_trace "fbstream" (loggers_after_config "fbstream" false)
                              sysfs_absent fb1_sized)
     = Some ("0.0.0.0", 8808)
  /\ ~ exists (a b : Bottle),
        listening (trace (snd (start_server a w_start)))
        <> listening (trace (snd (start_server b w_start))).
Proof.
  split; [simpl; auto|]. split; [vm_compute; reflexivity|].
  intros (a & b & H). apply H. reflexivity.
Qed.

(** C9, amended. The application has exactly one route, GET [/stream]: the
    constructor either fails in [get_logger], before any route, or returns
    the application with that single route. The server is started on all
    interfaces ([0.0.0.0]) and on port 8808, which is fixed: nothing in the
    configuration changes it. *)
Theorem C9_one_route_fixed_port (prog : string) (lst : logging_state)
    (kwargs : Namespace) (self : Bottle) (w : world) :
  fst (StreamHandler_init prog lst kwargs w)
  = (match fst (get_logger prog "StreamHandler" (log_level kwargs) lst) with
     | Ok _ => Ok {| params := kwargs; routes := [("GET", "/stream")] |}
     | Raise e => Raise e
     end)
  /\ trace (snd (start_server self w))
     = trace w ++ [EvLog INFO "Starting web server.." [];
                   EvRun "0.0.0.0" 8808 (minthreads (params self))
                         (maxthreads (params self))]
  /\ listening (trace (snd (start_server self w_start))) = Some ("0.0.0.0", 8808).
Proof.
  split; [|split; [|reflexivity]].
  - rewrite StreamHandler_init_eq.
    now destruct (fst (get_logger prog "StreamHandler" (log_level kwargs) lst)).
  - unfold start_server. run_m. now rewrite <- app_assoc.
Qed.

Lemma resolve_depth_ok fs args w a' w' :
  resolve_depth fs args w = (Ok a', w') ->
  width a' = width args /\ height a' = height args /\ device a' = device args
  /\ (if is_auto (depth args)
      then (exists txt d,
               fs (bits_per_pixel_file (device args)) = FileText txt
               /\ py_int (first_two txt) = Some d /\ depth a' = VInt d)
           \/ (fs (bits_per_pixel_file (device args)) = FileOSError
               /\ depth a' = AUTO)
      else depth a' = depth args).
Proof.
  intros H. destruct (is_auto (depth args)) eqn:Hauto.
  - destruct (fs (bits_per_pixel_file (device args))) as [| |txt] eqn:Hfs.
    + rewrite (resolve_depth_unreadable _ _ _ Hauto Hfs) in H.
      injection H as <- _. rewrite (is_auto_true _ Hauto).
      repeat split; try reflexivity. right. split; reflexivity.
    + rewrite (resolve_depth_malformed _ _ _ Hauto (or_introl Hfs)) in H.
      discriminate.
    + destruct (py_int (first_two txt)) as [d|] eqn:Hint.
      * rewrite (resolve_depth_parsed _ _ _ _ _ Hauto Hfs Hint) in H.
        injection H as <- _. simpl.
        repeat split; try reflexivity. left. exists txt, d. auto.
      * rewrite (resolve_depth_malformed _ args w Hauto) in H; [|right; eauto].
        discriminate.
  - rewrite (resolve_depth_explicit _ _ _ Hauto) in H. injection H as <- _. auto.
Qed.

Lemma size_outcome_ok fs dev wd ht :
  size_outcome fs dev = Ok (wd, ht) ->
  exists txt,
    fs (virtual_size_file dev) = FileText txt
    /\ ints_of (split_comma txt) = Some [wd; ht].
Proof.
  unfold size_outcome.
  destruct (fs (virtual_size_file dev)) as [| |txt]; try discriminate.
  destruct (ints_of (split_comma txt)) as [[|a [|b [|c l]]]|] eqn:E;
    try discriminate.
  intros H. injection H as <- <-. exists txt. split; [reflexivity|exact E].
Qed.

(** A size step that completes has read its integers from [virtual_size]
    when a size was ['auto'], and has changed nothing otherwise. *)
Lemma resolve_size_ok_values fs args w a1 w1 :
  resolve_size fs args w = (Ok a1, w1) ->
  if is_auto (width args) || is_auto (height args)
  then exists txt wd ht,
         fs (virtual_size_file (device args)) = FileText txt
         /\ ints_of (split_comma txt) = Some [wd; ht]
         /\ width a1 = (if is_auto (width args) then VInt wd else width args)
         /\ height a1 = (if is_auto (height args) then VInt ht else height args)
  else width a1 = width args /\ height a1 = height args.
Proof.
  intros H.
  destruct (is_auto (width args) || is_auto (height args)) eqn:Hauto.
  - destruct (size_outcome_cases fs (device args)) as [(wd & ht & Ho)|[Ho|Ho]].
    + rewrite (resolve_size_parsed _ _ _ _ _ Hauto Ho) in H.
      injection H as <- _.
      destruct (size_outcome_ok _ _ _ _ Ho) as (txt & Hfs & Hints).
      exists txt, wd, ht. split; [exact Hfs|]. split; [exact Hints|].
      destruct (is_auto (width args)), (is_auto (height args)); simpl; auto.
    + rewrite (resolve_size_unreadable _ _ _ Hauto Ho) in H. discriminate.
    + rewrite (resolve_size_malformed _ _ _ Hauto Ho) in H. discriminate.
  - rewrite (resolve_size_explicit _ _ _ Hauto) in H. injection H as <- _. auto.
Qed.

(** C10. After argument checking, a width or height that was ['auto'] holds
    the integer read from [virtual_size], the first of its two
    comma-separated integers for the width and the second for the height; a
    depth that was ['auto'] holds the integer the first two characters of
    [bits_per_pixel] spell, or is still ['auto'] when that file could not be
    opened. A width, height or depth given explicitly is the very value that
    came in, a string left unconverted and unchecked. These values, as they
    are, form the shape the route callback hands to [numpy.memmap]. *)
Theorem C10_explicit_geometry_unconverted (fs : filesystem)
    (args args' : Namespace) (w w' : world) :
  check_args fs args w = (Ok args', w') ->
  (if is_auto (width args) || is_auto (height args)
   then exists txt wd ht,
          fs (virtual_size_file (device args)) = FileText txt
          /\ ints_of (split_comma txt) = Some [wd; ht]
          /\ width args' = (if is_auto (width args) then VInt wd
                            else width args)
          /\ height args' = (if is_auto (height args) then VInt ht
                             else height args)
   else width args' = width args /\ height args' = height args)
  /\ (if is_auto (depth args)
      then (exists txt d,
               fs (bits_per_pixel_file (device args)) = FileText txt
               /\ py_int (first_two txt) = Some d /\ depth args' = VInt d)
           \/ (fs (bits_per_pixel_file (device args)) = FileOSError
               /\ depth args' = AUTO)
      else depth args' = depth args)
  /\ forall (mm : option exn) (wx : world),
      exists rest,
        trace (snd (stream {| params := args'; routes := [("GET", "/stream")] |}
                           mm wx))
        = trace wx ++ EvMemmap ("/dev/" +:+ device args') "uint16" "r"
                        (height args', width args', depth args') :: rest.
Proof.
  intros H. destruct (check_args_ok _ _ _ _ _ H) as (_ & Hg).
  rewrite resolve_geometry_eq in Hg.
  match type of Hg with
  | context [resolve_size fs args ?w0] =>
      destruct (resolve_size fs args w0) as [[a1|e] w1] eqn:Hs
  end; [|discriminate].
  destruct (resolve_size_ok _ _ _ _ _ Hs) as (Hdev & Hdep & _).
  pose proof (resolve_size_ok_values _ _ _ _ _ Hs) as Hv.
  destruct (resolve_depth_ok _ _ _ _ _ Hg) as (Hw' & Hh' & _ & Hd').
  rewrite Hdep, Hdev in Hd'. rewrite <- Hw', <- Hh' in Hv.
  split; [exact Hv|]. split; [exact Hd'|].
  intros mm wx.
  exact (stream_maps_first {| params := args'; routes := [("GET", "/stream")] |}
                           mm wx).
Qed.

(** [-W -7] with the descriptors of a 320 by 240 screen of 16 bits: the
    width stays the string, height and depth are the integers read. *)
Lemma C10_explicit_geometry_unconverted_witness :
  (exists txt wd ht,
      sysfs_320_240_16 (virtual_size_file "fb1") = FileText txt
      /\ ints_of (split_comma txt) = Some [wd; ht]
      /\ VStr "-7" = VStr "-7" /\ VInt 240 = VInt ht)
  /\ ((exists txt d,
          sysfs_320_240_16 (bits_per_pixel_file "fb1") = FileText txt
          /\ py_int (first_two txt) = Some d /\ VInt 16 = VInt d)
      \/ (sysfs_320_240_16 (bits_per_pixel_file "fb1") = FileOSError
          /\ VInt 16 = AUTO))
  /\ exists rest,
      trace (snd (stream {| params := set_depth (VInt 16)
                                        (set_height (VInt 240) fb1_mixed);
                            routes := [("GET", "/stream")] |} None w_start))
      = EvMemmap "/dev/fb1" "uint16" "r" (VInt 240, VStr "-7", VInt 16) :: rest.
Proof.
  destruct (C10_explicit_geometry_unconverted sysfs_320_240_16 fb1_mixed
              (set_depth (VInt 16) (set_height (VInt 240) fb1_mixed))
              w_start
              (World 0 [EvLog DEBUG "sysfs_path: %s"
                              [VStr "/sys/class/graphics/fb1/"];
                        EvOpen "/sys/class/graphics/fb1/virtual_size";
                        EvOpen "/sys/class/graphics/fb1/bits_per_pixel"])
              eq_refl) as (Hsz & Hd & Hs).
  split; [exact Hsz|]. split; [exact Hd|]. exact (Hs None w_start).
Defined.

(** * Further properties of the code *)

(** ** The checks that can end the program *)

Lemma validate_eq (args : Namespace) (w : world) :
  validate args w =
  (match int_of (minthreads args), int_of (maxthreads args) with
   | Some _, Some _ =>
       if String.eqb (device args) EmptyString then Raise (SystemExit 1)
       else Ok tt
   | _, _ => Raise ValueError
   end,
   World (now w)
         (trace w ++ if String.eqb (device args) EmptyString
                     then [EvLog ERROR "No frambuffer device specified." []]
                     else [])).
Proof.
  unfold validate, int_or_raise, isinstance_int. run_m.
  destruct (String.eqb (device args) EmptyString); simpl;
    destruct (int_of (minthreads args)); simpl;
    destruct (int_of (maxthreads args)); simpl;
    rewrite ?app_nil_r; try reflexivity; now destruct w.
Qed.

Lemma validate_trace args w :
  exists ext,
    trace (snd (validate args w)) = trace w ++ ext /\ config_only ext.
Proof.
  rewrite validate_eq. simpl. eexists. split; [reflexivity|].
  destruct (String.eqb (device args) EmptyString); repeat constructor.
Qed.

Lemma check_args_eq fs args w :
  check_args fs args w =
  match validate args w with
  | (Ok _, w') => resolve_geometry fs args w'
  | (Raise e, w') => (Raise e, w')
  end.
Proof. reflexivity. Qed.

Lemma validate_passes args w :
  device args <> EmptyString ->
  is_Some (int_of (minthreads args)) -> is_Some (int_of (maxthreads args)) ->
  validate args w = (Ok tt, w).
Proof.
  intros Hd [m Hm] [n Hn]. rewrite validate_eq, Hm, Hn.
  apply String.eqb_neq in Hd. rewrite Hd, app_nil_r. now destruct w.
Qed.

(** X1. What lines 255-267 do, in full. A thread count that [int()] rejects
    raises [ValueError]: the branches that would log "Invalid minthreads" or
    "Invalid maxthreads" never run, so the trace gains at most the one error
    about the device. With numeric thread counts, of any sign and in any
    order, an empty device name exits with status 1, and anything else
    passes without a trace. *)
Theorem X1_validate_outcomes (args : Namespace) (w : world) :
  fst (validate args w)
  = (match int_of (minthreads args), int_of (maxthreads args) with
     | Some _, Some _ =>
         if String.eqb (device args) EmptyString then Raise (SystemExit 1)
         else Ok tt
     | _, _ => Raise ValueError
     end)
  /\ trace (snd (validate args w))
     = trace w ++ (if String.eqb (device args) EmptyString
                   then [EvLog ERROR "No frambuffer device specified." []]
                   else []).
Proof. rewrite validate_eq. split; reflexivity. Qed.

(** X2. An empty device name, with numeric thread counts, makes
    [check_args] log the error and exit with status 1 before it looks at the
    geometry: no descriptor is opened, whatever the file system holds. *)
Theorem X2_empty_device_exits (fs : filesystem) (args : Namespace) (w : world) :
  device args = EmptyString ->
  is_Some (int_of (minthreads args)) -> is_Some (int_of (maxthreads args)) ->
  check_args fs args w
  = (Raise (SystemExit 1),
     World (now w) (trace w ++ [EvLog ERROR "No frambuffer device specified." []]))
  /\ forall path, reads_of path (trace (snd (check_args fs args w)))
                  = reads_of path (trace w).
Proof.
  intros Hd [m Hm] [n Hn].
  assert (E : check_args fs args w
              = (Raise (SystemExit 1),
                 World (now w)
                   (trace w ++ [EvLog ERROR "No frambuffer device specified." []]))).
  { rewrite check_args_eq, validate_eq, Hm, Hn, Hd. reflexivity. }
  split; [exact E|]. intros path. rewrite E. simpl.
  rewrite reads_of_app, reads_of_log. lia.
Qed.

Lemma X2_empty_device_exits_witness :
  fst (check_args sysfs_320_240_16 fb_unnamed w_start) = Raise (SystemExit 1).
Proof.
  destruct (X2_empty_device_exits sysfs_320_240_16 fb_unnamed w_start eq_refl)
    as (H & _).
  - eexists. reflexivity.
  - eexists. reflexivity.
  - rewrite H. reflexivity.
Defined.

(** X3. When a width or height is ['auto'] and [virtual_size] cannot be
    opened, [check_args] logs the warning and then fails on the local name
    that was never bound: [UnboundLocalError] for [width] if the width is
    ['auto'], for [height] otherwise. The depth descriptor is not read. *)
Theorem X3_unreadable_size_unbound_local (fs : filesystem) (args : Namespace)
    (w : world) :
  validate args w = (Ok tt, w) ->
  is_auto (width args) || is_auto (height args) = true ->
  fs (virtual_size_file (device args)) = FileOSError ->
  check_args fs args w
  = (Raise (UnboundLocalError (if is_auto (width args) then "width" else "height")),
     World (now w)
           (trace w ++ [EvLog DEBUG "sysfs_path: %s" [VStr (sysfs_path (device args))];
                        EvOpen (virtual_size_file (device args));
                        EvLog WARNING "Could not read %s"
                              [VStr (virtual_size_file (device args))]])).
Proof.
  intros Hv Hauto Hfs.
  rewrite check_args_eq, Hv, resolve_geometry_eq.
  rewrite (resolve_size_unreadable fs args _ Hauto).
  - simpl. rewrite <- !app_assoc. reflexivity.
  - unfold size_outcome. now rewrite Hfs.
Qed.

Lemma X3_unreadable_size_unbound_local_witness :
  fst (check_args sysfs_absent fb1_auto w_start) = Raise (UnboundLocalError "width").
Proof.
  rewrite (X3_unreadable_size_unbound_local sysfs_absent fb1_auto w_start
             eq_refl eq_refl eq_refl).
  reflexivity.
Defined.

(** ** What argument checking changes *)

Lemma resolve_size_frame fs args w a1 w1 :
  resolve_size fs args w = (Ok a1, w1) ->
  log_level a1 = log_level args /\ extra a1 = extra args
  /\ is_auto (width a1) = false /\ is_auto (height a1) = false.
Proof.
  intros H.
  destruct (is_auto (width args) || is_auto (height args)) eqn:Hauto.
  - destruct (size_outcome_cases fs (device args)) as [(wd & ht & Ho)|[Ho|Ho]].
    + rewrite (resolve_size_parsed _ _ _ _ _ Hauto Ho) in H.
      injection H as <- _.
      destruct (is_auto (width args)) eqn:Ew, (is_auto (height args)) eqn:Eh;
        simpl; auto.
    + rewrite (resolve_size_unreadable _ _ _ Hauto Ho) in H. discriminate.
    + rewrite (resolve_size_malformed _ _ _ Hauto Ho) in H. discriminate.
  - rewrite (resolve_size_explicit _ _ _ Hauto) in H. injection H as <- _.
    apply orb_false_elim in Hauto as [-> ->]. auto.
Qed.

Lemma resolve_depth_frame fs args w a' w' :
  resolve_depth fs args w = (Ok a', w') ->
  log_level a' = log_level args /\ extra a' = extra args
  /\ minthreads a' = minthreads args /\ maxthreads a' = maxthreads args.
Proof.
  intros H. destruct (is_auto (depth args)) eqn:Hauto.
  - destruct (fs (bits_per_pixel_file (device args))) as [| |txt] eqn:Hfs.
    + rewrite (resolve_depth_unreadable _ _ _ Hauto Hfs) in H.
      injection H as <- _. auto.
    + rewrite (resolve_depth_malformed _ _ _ Hauto (or_introl Hfs)) in H.
      discriminate.
    + destruct (py_int (first_two txt)) as [d|] eqn:Hint.
      * rewrite (resolve_depth_parsed _ _ _ _ _ Hauto Hfs Hint) in H.
        injection H as <- _. auto.
      * rewrite (resolve_depth_malformed _ args w Hauto) in H; [|right; eauto].
        discriminate.
  - rewrite (resolve_depth_explicit _ _ _ Hauto) in H. injection H as <- _. auto.
Qed.

(** X4. Argument checking changes the geometry and nothing else: device,
    thread counts, log level and the keys a config file added come out as
    they went in. Once no field is ['auto'] any more the result is a fixed
    point: checking it again, against any file system, returns it unchanged
    and opens no descriptor. *)
Theorem X4_check_args_frame_and_fixpoint (fs : filesystem)
    (args args' : Namespace) (w w' : world) :
  check_args fs args w = (Ok args', w') ->
  (device args' = device args /\ minthreads args' = minthreads args
   /\ maxthreads args' = maxthreads args /\ log_level args' = log_level args
   /\ extra args' = extra args)
  /\ (is_auto (depth args') = false ->
      forall (fs2 : filesystem) (w2 : world),
        check_args fs2 args' w2
        = (Ok args',
           World (now w2)
                 (trace w2 ++ [EvLog DEBUG "sysfs_path: %s"
                                     [VStr (sysfs_path (device args'))]]))).
Proof.
  intros H. destruct (check_args_ok _ _ _ _ _ H) as (Hv & Hg).
  rewrite resolve_geometry_eq in Hg.
  match type of Hg with
  | context [resolve_size fs args ?w0] =>
      destruct (resolve_size fs args w0) as [[a1|e] w1] eqn:Hs
  end; [|discriminate].
  destruct (resolve_size_ok _ _ _ _ _ Hs) as (Hdev & _ & Hmin & Hmax & _).
  destruct (resolve_size_frame _ _ _ _ _ Hs) as (Hlvl & Hext & Hw & Hh).
  destruct (resolve_depth_ok _ _ _ _ _ Hg) as (Hw' & Hh' & Hdev' & _).
  destruct (resolve_depth_frame _ _ _ _ _ Hg) as (Hlvl' & Hext' & Hmin' & Hmax').
  assert (Hframe : device args' = device args /\ minthreads args' = minthreads args
                   /\ maxthreads args' = maxthreads args).
  { repeat split; congruence. }
  split; [intuition congruence|].
  intros Hd fs2 w2.
  destruct (validate_ok _ _ _ Hv) as (_ & Hne & Hm1 & Hm2).
  destruct Hframe as (F1 & F2 & F3).
  rewrite check_args_eq, validate_passes.
  - rewrite resolve_geometry_eq, resolve_size_explicit.
    + now rewrite resolve_depth_explicit.
    + rewrite Hw', Hh', Hw, Hh. reflexivity.
  - now rewrite F1.
  - rewrite F2. destruct (int_of (minthreads args)); [eauto|congruence].
  - rewrite F3. destruct (int_of (maxthreads args)); [eauto|congruence].
Qed.

Lemma X4_check_args_frame_and_fixpoint_witness :
  check_args sysfs_absent
             (set_depth (VInt 16)
                (set_height (VInt 240) (set_width (VInt 320) fb1_auto)))
             w_start
  = (Ok (set_depth (VInt 16)
           (set_height (VInt 240) (set_width (VInt 320) fb1_auto))),
     World 0 [EvLog DEBUG "sysfs_path: %s" [VStr "/sys/class/graphics/fb1/"]]).
Proof.
  exact (proj2 (X4_check_args_frame_and_fixpoint sysfs_320_240_16 fb1_auto
                  _ w_start _ eq_refl)
               eq_refl sysfs_absent w_start).
Defined.

(** X5. When argument checking raises, [main] raises the same exception and
    has done nothing but log and open descriptors: no route is registered,
    readiness is not signalled, the server is not started and not even
    "Exiting." is printed. *)
Theorem X5_failed_check_aborts_main (prog : string) (lst : logging_state)
    (fs : filesystem) (merged : Namespace) (w w' : world) (e : exn) :
  check_args fs merged w = (Raise e, w') ->
  main prog lst fs merged w = (Raise e, w')
  /\ exists ext, trace w' = trace w ++ ext /\ config_only ext.
Proof.
  intros H. split.
  - unfold main, mbind, M_bind, bind. now rewrite H.
  - rewrite check_args_eq in H.
    destruct (validate_trace merged w) as (e1 & H1 & F1).
    destruct (validate merged w) as [[[]|e0] w0]; simpl in H1.
    + destruct (resolve_geometry_trace fs merged w0) as (e2 & H2 & F2).
      rewrite H in H2. simpl in H2. exists (e1 ++ e2).
      rewrite H2, H1, <- app_assoc. split; [reflexivity|].
      now apply Forall_app.
    + injection H as _ <-. eauto.
Qed.

Lemma X5_failed_check_aborts_main_witness :
  main "fbstream" (loggers_after_config "fbstream" false)
       sysfs_malformed fb1_auto w_start
  = (Raise ValueError,
     World 0 [EvLog DEBUG "sysfs_path: %s" [VStr "/sys/class/graphics/fb1/"];
              EvOpen "/sys/class/graphics/fb1/virtual_size"]).
Proof.
  exact (proj1 (X5_failed_check_aborts_main "fbstream"
                  (loggers_after_config "fbstream" false)
                  sysfs_malformed fb1_auto w_start
                  _ ValueError eq_refl)).
Defined.

(** ** Descriptors as the kernel writes them *)

Lemma plain_numeral (d : Decimal.uint) : plain (NilEmpty.string_of_uint d) = true.
Proof. induction d; simpl; auto. Qed.

Lemma to_uint_nonnil (n : nat) : Nat.to_uint n <> Decimal.Nil.
Proof.
  intros H. pose proof (Unsigned.to_of (Nat.to_uint n)) as E.
  rewrite Unsigned.of_to in E. rewrite E in H.
  exact (DecimalFacts.unorm_nonnil _ H).
Qed.

Lemma numeral_nonempty (n : nat) : decimal n <> EmptyString.
Proof.
  unfold decimal. pose proof (to_uint_nonnil n) as H.
  destruct (Nat.to_uint n); simpl; congruence.
Qed.

Lemma rstrip_plain (s : string) : plain s = true -> rstrip s = s.
Proof.
  induction s as [|c t IH]; simpl; [reflexivity|].
  intros H. apply andb_prop in H as [H Ht]. apply andb_prop in H as [Hc _].
  rewrite (IH Ht). apply negb_true_iff in Hc. rewrite Hc.
  now destruct t.
Qed.

Lemma rstrip_cons (c : ascii) (t : string) :
  rstrip (String c t)
  = match rstrip t with
    | EmptyString => if is_space c then EmptyString else String c EmptyString
    | t' => String c t'
    end.
Proof. reflexivity. Qed.

Lemma rstrip_plain_newline_gen (s : string) :
  plain s = true -> rstrip (s +:+ NL) = s.
Proof.
  induction s as [|c t IH]; [reflexivity|]. intros H.
  simpl in H. apply andb_prop in H as [H Ht]. apply andb_prop in H as [Hc _].
  apply negb_true_iff in Hc.
  change (String c t +:+ NL) with (String c (t +:+ NL)).
  rewrite rstrip_cons, (IH Ht), Hc. now destruct t.
Qed.

Lemma rstrip_plain_newline (s : string) :
  plain s = true -> s <> EmptyString -> rstrip (s +:+ NL) = s.
Proof. intros H _. now apply rstrip_plain_newline_gen. Qed.

Lemma lstrip_plain (s : string) : plain s = true -> lstrip s = s.
Proof.
  destruct s as [|c t]; simpl; [reflexivity|].
  intros H. apply andb_prop in H as [H _]. apply andb_prop in H as [Hc _].
  apply negb_true_iff in Hc. now rewrite Hc.
Qed.

Lemma lstrip_plain_app (s t : string) :
  plain s = true -> s <> EmptyString -> lstrip (s +:+ t) = s +:+ t.
Proof.
  destruct s as [|c s']; [congruence|]. simpl.
  intros H _. apply andb_prop in H as [H _]. apply andb_prop in H as [Hc _].
  apply negb_true_iff in Hc. now rewrite Hc.
Qed.

(** Reading the digits of a numeral gives back its number. *)
Lemma digits_from_numeral (d : Decimal.uint) : forall (acc : nat) (b : bool),
  (b = true \/ d <> Decimal.Nil) ->
  digits_from (Z.of_nat acc) b (NilEmpty.string_of_uint d)
  = Some (Z.of_nat (Nat.of_uint_acc d acc)).
Proof.
  induction d; intros acc b Hb;
    try (cbn [NilEmpty.string_of_uint digits_from Nat.of_uint_acc];
         match goal with
         | |- context [digit_of ?c] =>
             change (digit_of c) with (Some (Z.of_N (N_of_ascii c) - 48))
         end;
         cbn [N_of_ascii N_of_digits Z.of_N];
         match goal with
         | |- digits_from ?z true _ = Some (Z.of_nat (Nat.of_uint_acc _ ?a)) =>
             replace z with (Z.of_nat a);
             [apply IHd; now left
             |rewrite ?Nat.tail_mul_spec; simpl Z.of_N; lia]
         end).
  simpl. destruct Hb as [->|H]; [reflexivity|congruence].
Qed.

Lemma py_int_numeral (n : nat) : py_int (decimal n) = Some (Z.of_nat n).
Proof.
  unfold py_int, strip.
  rewrite lstrip_plain, rstrip_plain by apply plain_numeral.
  pose proof (digits_from_numeral (Nat.to_uint n) 0 false
                (or_intror (to_uint_nonnil n))) as H.
  change (Nat.of_uint_acc (Nat.to_uint n) 0) with (Nat.of_uint (Nat.to_uint n)) in H.
  rewrite Unsigned.of_to in H. change (Z.of_nat 0) with 0 in H.
  unfold decimal. pose proof (to_uint_nonnil n) as Hn.
  destruct (Nat.to_uint n); try congruence; exact H.
Qed.

Lemma py_int_numeral_newline (n : nat) :
  py_int (decimal n +:+ NL) = Some (Z.of_nat n).
Proof.
  pose proof (py_int_numeral n) as H. unfold py_int, strip in *.
  rewrite lstrip_plain_app
    by (apply plain_numeral || apply numeral_nonempty).
  rewrite rstrip_plain_newline
    by (apply plain_numeral || apply numeral_nonempty).
  rewrite lstrip_plain, rstrip_plain in H by apply plain_numeral.
  exact H.
Qed.

Lemma split_comma_nonempty (s : string) : split_comma s <> [].
Proof.
  induction s as [|c t IH]; simpl; [discriminate|].
  destruct (Ascii.eqb c ","); [discriminate|].
  destruct (split_comma t); [congruence|discriminate].
Qed.

Lemma split_comma_plain_app (s t : string) :
  plain s = true ->
  split_comma (s +:+ String "," t) = s :: split_comma t.
Proof.
  induction s as [|c s IH]; intros H.
  - reflexivity.
  - simpl in H. apply andb_prop in H as [H Hs]. apply andb_prop in H as [_ Hc].
    apply negb_true_iff in Hc.
    change (split_comma (String c s +:+ String "," t))
      with (if Ascii.eqb c "," then EmptyString :: split_comma (s +:+ String "," t)
            else match split_comma (s +:+ String "," t) with
                 | h :: r => String c h :: r
                 | [] => [String c EmptyString]
                 end).
    now rewrite Hc, (IH Hs).
Qed.

Lemma split_comma_no_comma (s : string) (tail : string) :
  plain s = true -> tail = EmptyString \/ tail = NL ->
  split_comma (s +:+ tail) = [s +:+ tail].
Proof.
  intros Hs Ht. induction s as [|c s IH].
  - destruct Ht as [->| ->]; reflexivity.
  - simpl in Hs. apply andb_prop in Hs as [H Hs]. apply andb_prop in H as [_ Hc].
    apply negb_true_iff in Hc.
    change (split_comma (String c s +:+ tail))
      with (if Ascii.eqb c "," then EmptyString :: split_comma (s +:+ tail)
            else match split_comma (s +:+ tail) with
                 | h :: r => String c h :: r
                 | [] => [String c EmptyString]
                 end).
    now rewrite Hc, (IH Hs).
Qed.

Lemma ints_of_virtual_size_text (wd ht : nat) :
  ints_of (split_comma (virtual_size_text wd ht))
  = Some [Z.of_nat wd; Z.of_nat ht].
Proof.
  unfold virtual_size_text.
  rewrite split_comma_plain_app by apply plain_numeral.
  rewrite split_comma_no_comma by (apply plain_numeral || auto).
  simpl. now rewrite py_int_numeral, py_int_numeral_newline.
Qed.

(** X6. Round trip for the size descriptor: when [virtual_size] holds the
    decimal width, a comma, the decimal height and a newline, as the kernel
    writes it for its 32-bit values, the size step stores exactly that width
    and that height in the fields that were ['auto'], after one open. *)
Theorem X6_virtual_size_round_trip (fs : filesystem) (args : Namespace)
    (w : world) (wd ht : nat) :
  Z.of_nat wd < 2 ^ 32 -> Z.of_nat ht < 2 ^ 32 ->
  is_auto (width args) || is_auto (height args) = true ->
  fs (virtual_size_file (device args)) = FileText (virtual_size_text wd ht) ->
  resolve_size fs args w
  = (Ok (let a1 := if is_auto (width args)
                   then set_width (VInt (Z.of_nat wd)) args else args in
         if is_auto (height args) then set_height (VInt (Z.of_nat ht)) a1
         else a1),
     World (now w) (trace w ++ [EvOpen (virtual_size_file (device args))])).
Proof.
  intros _ _ Hauto Hfs. apply resolve_size_parsed; [exact Hauto|].
  unfold size_outcome. now rewrite Hfs, ints_of_virtual_size_text.
Qed.

Lemma X6_virtual_size_round_trip_witness :
  fst (resolve_size (sysfs_of (FileText (virtual_size_text 1920 1080)) FileOSError)
                    fb1_auto w_start)
  = Ok (set_height (VInt 1080) (set_width (VInt 1920) fb1_auto)).
Proof.
  rewrite (X6_virtual_size_round_trip
             (sysfs_of (FileText (virtual_size_text 1920 1080)) FileOSError)
             fb1_auto w_start 1920 1080);
    reflexivity.
Defined.

Lemma first_two_of_depth_text :
  forallb (fun d => match py_int (first_two (decimal d +:+ NL)) with
                    | Some z => Z.eqb z (Z.of_nat (if d <? 100 then d else d / 10))%nat
                    | None => false
                    end) (seq 0 1000) = true.
Proof. vm_compute. reflexivity. Qed.

(** X7. The depth descriptor is read through its first two characters only:
    a [bits_per_pixel] of one or two digits (followed by a newline) is
    stored exactly, while of a three-digit value only the first two digits
    are stored, 128 becoming 12. *)
Theorem X7_depth_two_characters (fs : filesystem) (args : Namespace)
    (w : world) (d : nat) :
  (d < 1000)%nat ->
  is_auto (depth args) = true ->
  fs (bits_per_pixel_file (device args)) = FileText (decimal d +:+ NL) ->
  resolve_depth fs args w
  = (Ok (set_depth (VInt (Z.of_nat (if d <? 100 then d else d / 10)%nat)) args),
     World (now w) (trace w ++ [EvOpen (bits_per_pixel_file (device args))])).
Proof.
  intros Hd Hauto Hfs.
  apply (resolve_depth_parsed fs args w (decimal d +:+ NL)); try assumption.
  pose proof first_two_of_depth_text as H.
  rewrite forallb_forall in H. specialize (H d).
  destruct (py_int (first_two (decimal d +:+ NL))) as [z|].
  - f_equal. apply Z.eqb_eq. apply H. apply in_seq. lia.
  - discriminate H. apply in_seq. lia.
Qed.

Lemma X7_depth_two_characters_witness :
  fst (resolve_depth (sysfs_of FileOSError (FileText (decimal 128 +:+ NL)))
                     fb1_auto w_start)
  = Ok (set_depth (VInt 12) fb1_auto).
Proof.
  rewrite (X7_depth_two_characters
             (sysfs_of FileOSError (FileText (decimal 128 +:+ NL)))
             fb1_auto w_start 128); [reflexivity|lia|reflexivity|reflexivity].
Defined.

(** ** More on the generator *)

Lemma pulls_closed png (tks : list tick) : forall (g : generator) (w : world),
  g_status g = GenClosed ->
  fst (fst (pulls png g w tks)) = map (fun _ => Raise StopIteration) tks
  /\ snd (fst (pulls png g w tks)) = g
  /\ trace (snd (pulls png g w tks)) = trace w.
Proof.
  induction tks as [|tk rest IH]; intros g w Hc; [auto|].
  rewrite pulls_cons. cbn [fst snd].
  rewrite gen_next_closed by assumption. cbn [fst snd].
  destruct (IH g (World (now w + idle tk)%N (trace w)) Hc) as (H1 & H2 & H3).
  rewrite H1, H2, H3. auto.
Qed.

(** X8. An exception of the encoder ends the stream for good: the request
    during which it is raised gets that exception, after the sleep and
    without a chunk, and every later request on the same generator gets
    [StopIteration]; nothing more is slept, encoded or yielded. *)
Theorem X8_encoder_failure_ends_stream png (g : generator) (w : world)
    (tk : tick) (tks : list tick) (e : exn) :
  g_status g <> GenClosed ->
  png (width (g_params g)) (height (g_params g)) (g_nda g) (pixels tk) = Raise e ->
  fst (fst (pulls png g w (tk :: tks)))
  = Raise e :: map (fun _ => Raise StopIteration) tks
  /\ g_status (snd (fst (pulls png g w (tk :: tks)))) = GenClosed
  /\ trace (snd (pulls png g w (tk :: tks))) = trace w ++ [EvSleep TICK_MS].
Proof.
  intros Hl He. rewrite pulls_cons. cbn [fst snd].
  rewrite gen_next_live by assumption. rewrite He. cbn [fst snd].
  match goal with
  | |- context [pulls png ?g1 ?w1 tks] =>
      destruct (pulls_closed png tks g1 w1 eq_refl) as (H1 & H2 & H3)
  end.
  rewrite H1, H2, H3. auto.
Qed.

Lemma X8_encoder_failure_ends_stream_witness :
  fst (fst (pulls picky_encoder gen_sized w_start [tick_empty; tick_a; tick_b]))
  = [Raise LibraryError; Raise StopIteration; Raise StopIteration].
Proof.
  exact (proj1 (X8_encoder_failure_ends_stream picky_encoder gen_sized w_start
                  tick_empty [tick_a; tick_b] LibraryError
                  ltac:(discriminate) eq_refl)).
Defined.

(** X9. No frame is kept from one tick to the next: in a run the encoder
    accepts, the chunk of each request is the framing of what the encoder
    makes of the memory as it stood at that request, whatever came before
    and whatever the clock says. *)
Theorem X9_chunk_depends_on_its_tick_only png (tks : list tick) :
  forall (g : generator) (w : world),
    g_status g <> GenClosed ->
    encodes png g tks ->
    fst (fst (pulls png g w tks))
    = map (fun tk =>
             match png (width (g_params g)) (height (g_params g)) (g_nda g)
                       (pixels tk) with
             | Ok img => Ok ((CHUNK_HEAD ++ img) ++ CRLF)
             | Raise e => Raise e
             end) tks.
Proof.
  induction tks as [|tk rest IH]; intros g w Hl Henc; [reflexivity|].
  rewrite pulls_cons. cbn [fst snd map].
  apply Forall_cons in Henc as [(img & Himg) Hrest].
  rewrite gen_next_live by assumption. rewrite Himg. cbn [fst snd].
  f_equal.
  apply (IH (set_status GenSuspended g)); [discriminate|exact Hrest].
Qed.

Lemma X9_chunk_depends_on_its_tick_only_witness :
  fst (fst (pulls raw_encoder gen_sized w_start [tick_a; tick_b; tick_a]))
  = [Ok ((CHUNK_HEAD ++ pixels tick_a) ++ CRLF);
     Ok ((CHUNK_HEAD ++ pixels tick_b) ++ CRLF);
     Ok ((CHUNK_HEAD ++ pixels tick_a) ++ CRLF)].
Proof.
  refine (X9_chunk_depends_on_its_tick_only raw_encoder [tick_a; tick_b; tick_a]
            gen_sized w_start ltac:(discriminate) _).
  repeat constructor; eexists; reflexivity.
Defined.

(** X10. When [numpy.memmap] raises, the route callback raises the same
    exception right after the attempt: the [Content-Type] header is not set,
    no generator is returned, and the connection never yields a chunk. *)
Theorem X10_failed_mapping_no_stream png (self : Bottle) (e : exn) (w : world)
    (t : N) (tks : list tick) :
  stream self (Some e) w
  = (Raise e,
     World (now w)
           (trace w ++ [EvMemmap ("/dev/" +:+ device (params self)) "uint16" "r"
                                 (height (params self), width (params self),
                                  depth (params self))]))
  /\ c_gen (handle_request self t (Some e)) = None
  /\ fold_left (pull png) tks (handle_request self t (Some e))
     = handle_request self t (Some e)
  /\ count is_set_content_type
           (trace (c_world (handle_request self t (Some e)))) = 0%nat
  /\ count is_yield (trace (c_world (handle_request self t (Some e)))) = 0%nat.
Proof.
  split; [reflexivity|]. split; [reflexivity|]. split; [|split; reflexivity].
  induction tks as [|tk rest IH]; [reflexivity|exact IH].
Qed.

(** ** Loggers *)

Lemma get_logger_hit prog c l st ref :
  loggers st !! logger_name prog c l = Some ref ->
  get_logger prog c l st = (Ok ref, st).
Proof. intros H. unfold get_logger. now rewrite H. Qed.

Lemma get_logger_ok_cached prog c l st ref :
  fst (get_logger prog c l st) = Ok ref ->
  loggers (snd (get_logger prog c l st)) !! logger_name prog c l = Some ref.
Proof.
  unfold get_logger.
  destruct (loggers st !! logger_name prog c l) as [lg|] eqn:E; simpl.
  - intros H. injection H as <-. exact E.
  - destruct (check_level l); simpl; [|discriminate].
    intros H. injection H as <-. apply lookup_insert_eq.
Qed.

Lemma get_logger_miss_ok prog c l st ref :
  loggers st !! logger_name prog c l = None ->
  fst (get_logger prog c l st) = Ok ref ->
  exists lg, manager (snd (get_logger prog c l st)) !! logger_name prog c l
             = Some lg
             /\ check_level l = Ok (lg_level lg).
Proof.
  intros Hm. unfold get_logger. rewrite Hm.
  destruct (check_level l) as [n|e]; simpl; [|discriminate].
  intros _. eexists. split; [apply lookup_insert_eq|reflexivity].
Qed.

(** X11. Outside debug mode every class gets one and the same logger, and
    the first request decides: once a [get_logger] with a level other than
    [logging.DEBUG] has returned, a later one for any class and any other
    value that is not [logging.DEBUG] returns the logger the first one
    returned and changes nothing. The level it asks for is not applied, and
    not even checked: a value [setLevel] would reject raises nothing. The
    logger, if the first request made it, keeps the level of that
    request. *)
Theorem X11_first_logger_level_sticks (prog c1 c2 : string) (l1 l2 : pyval)
    (st : logging_state) (ref : string) :
  pyval_eqb l1 (VInt 10) = false -> pyval_eqb l2 (VInt 10) = false ->
  fst (get_logger prog c1 l1 st) = Ok ref ->
  get_logger prog c2 l2 (snd (get_logger prog c1 l1 st))
  = get_logger prog c1 l1 st
  /\ (loggers st !! prog = None ->
      exists lg, manager (snd (get_logger prog c2 l2 (snd (get_logger prog c1 l1 st))))
                 !! prog = Some lg
                 /\ check_level l1 = Ok (lg_level lg)).
Proof.
  intros H1 H2 Hok.
  assert (N1 : logger_name prog c1 l1 = prog) by (unfold logger_name; now rewrite H1).
  assert (N2 : logger_name prog c2 l2 = prog) by (unfold logger_name; now rewrite H2).
  pose proof (get_logger_ok_cached _ _ _ _ _ Hok) as Hc. rewrite N1 in Hc.
  assert (E : get_logger prog c2 l2 (snd (get_logger prog c1 l1 st))
              = get_logger prog c1 l1 st).
  { rewrite (get_logger_hit prog c2 l2 _ ref) by (now rewrite N2).
    rewrite <- Hok. now destruct (get_logger prog c1 l1 st). }
  split; [exact E|]. intros Hmiss. rewrite E.
  destruct (get_logger_miss_ok prog c1 l1 st ref) as (lg & Hlg & Hn);
    [now rewrite N1|exact Hok|].
  rewrite N1 in Hlg. eauto.
Qed.

Lemma X11_first_logger_level_sticks_witness :
  exists lg,
    manager (snd (get_logger "fbstream" "StreamHandler" (VStr "no such level")
                    (snd (get_logger "fbstream" "ConfigHandler" (VInt 20)
                                     no_loggers))))
    !! "fbstream" = Some lg
    /\ check_level (VInt 20) = Ok (lg_level lg).
Proof.
  exact (proj2 (X11_first_logger_level_sticks "fbstream" "ConfigHandler"
                  "StreamHandler" (VInt 20) (VStr "no such level") no_loggers
                  "fbstream" eq_refl eq_refl eq_refl)
               eq_refl).
Defined.

Lemma get_logger_sound prog c l st :
  loggers_sound st -> loggers_sound (snd (get_logger prog c l st)).
Proof.
  intros (Hc & Hm). unfold get_logger.
  destruct (loggers st !! logger_name prog c l) as [ref|] eqn:E; simpl;
    [split; assumption|].
  set (name := logger_name prog c l) in *.
  assert (Hhs : forall lg0 : logger,
             match lg_handlers lg0 with
             | [] => lg_handlers lg0 ++ [STDOUT_HANDLER]
             | _ :: _ => lg_handlers lg0
             end <> []).
  { intros lg0. destruct (lg_handlers lg0); discriminate. }
  assert (Hone : (length (filter (fun h => h = STDOUT_HANDLER)
                    match lg_handlers (default {| lg_level := 0; lg_handlers := [] |}
                                               (manager st !! name)) with
                    | [] => lg_handlers (default {| lg_level := 0; lg_handlers := [] |}
                                                 (manager st !! name))
                            ++ [STDOUT_HANDLER]
                    | _ :: _ => lg_handlers (default {| lg_level := 0; lg_handlers := [] |}
                                                     (manager st !! name))
                    end) <= 1)%nat).
  { destruct (manager st !! name) as [lg0|] eqn:E0; simpl.
    - destruct (lg_handlers lg0) eqn:Eh; [simpl; auto|].
      rewrite <- Eh. eauto.
    - simpl. auto. }
  destruct (check_level l) as [n|e]; split; cbn [manager loggers snd].
  - intros k ref Hn. destruct (decide (ref = name)) as [->|Hne].
    + rewrite lookup_insert_eq. eexists. split; [reflexivity|]. apply Hhs.
    + rewrite lookup_insert_ne by congruence.
      destruct (decide (name = k)) as [<-|Hnn].
      * rewrite lookup_insert_eq in Hn. congruence.
      * rewrite lookup_insert_ne in Hn by assumption. eauto.
  - intros k lg Hn. destruct (decide (name = k)) as [<-|Hnn].
    + rewrite lookup_insert_eq in Hn. injection Hn as <-. exact Hone.
    + rewrite lookup_insert_ne in Hn by assumption. eauto.
  - intros k ref Hn. destruct (decide (ref = name)) as [->|Hne].
    + rewrite lookup_insert_eq. eexists. split; [reflexivity|]. apply Hhs.
    + rewrite lookup_insert_ne by congruence. eauto.
  - intros k lg Hn. destruct (decide (name = k)) as [<-|Hnn].
    + rewrite lookup_insert_eq in Hn. injection Hn as <-. exact Hone.
    + rewrite lookup_insert_ne in Hn by assumption. eauto.
Qed.

(** X12. However many loggers are asked for, for whatever classes and
    levels, accepted by [setLevel] or not, and whichever loggers the
    [logging] module already knows, the stdout handler is never attached to
    a logger twice, and every logger [get_logger] has cached exists and has
    a handler. *)
Theorem X12_stdout_handler_attached_once (prog : string)
    (calls : list (string * pyval)) (st : logging_state) :
  loggers_sound st -> loggers_sound (get_loggers prog calls st).
Proof.
  revert st. induction calls as [|[c l] calls IH]; intros st H; [exact H|].
  apply (IH (snd (get_logger prog c l st))). now apply get_logger_sound.
Qed.

Lemma X12_stdout_handler_attached_once_witness :
  loggers_sound
    (get_loggers "fbstream"
       [("ConfigHandler", VInt 10); ("StreamHandler", VStr "20");
        ("StreamHandler", VInt 10); ("ConfigHandler", VInt 20)]
       no_loggers).
Proof.
  apply X12_stdout_handler_attached_once.
  split; intros name x H; simpl in H; rewrite lookup_empty in H; discriminate.
Defined.

(** ** Serving and shutting down *)

Lemma signal_handler_eq sig w :
  signal_handler sig w
  = (Raise (SystemExit 0),
     World (now w)
           (trace w ++ [EvPrint (NL +:+ "Caught signal: " +:+ decimal sig
                                    +:+ " " +:+ NL)])).
Proof. reflexivity. Qed.

(** X13. [CherryPyServer.run] builds the server from host and port alone,
    so the thread counts handed to [run] as options never reach it; it
    starts the server once and always stops it once, whether [start]
    returns, is ended by a signal or raises. A [SystemExit] leaving [start]
    is swallowed; any other exception is raised again after the stop. *)
Theorem X13_server_always_stopped (self : ServerAdapter) (o : serving)
    (w : world) :
  let out := CherryPyServer_run self o w in
  snd (fst out)
  = {| bind_addr := (sa_host self, sa_port self); starts := 1; stops := 1 |}
  /\ fst (fst out)
     = (match o with
        | Returned | Signalled _ | Failed (SystemExit _) => Ok tt
        | Failed e => Raise e
        end)
  /\ forall options,
      CherryPyServer_run {| sa_host := sa_host self; sa_port := sa_port self;
                            sa_options := options |} o w
      = out.
Proof.
  destruct o as [|sig|e]; simpl; [auto| |destruct e; auto].
  unfold CherryPyServer_run, wsgi_start. rewrite signal_handler_eq. auto.
Qed.

Lemma start_server_serving_eq (self : Bottle) (o : serving) (w : world) :
  start_server_serving self o w
  = (match o with
     | Returned | Signalled _ | Failed (SystemExit _) => Ok tt
     | Failed e => Raise e
     end,
     World (now w)
       (trace w ++ [EvLog INFO "Starting web server.." [];
                    EvRun "0.0.0.0" 8808 (minthreads (params self))
                          (maxthreads (params self))]
                ++ match o with
                   | Signalled sig =>
                       [EvPrint (NL +:+ "Caught signal: " +:+ decimal sig
                                    +:+ " " +:+ NL)]
                   | _ => []
                   end)).
Proof.
  unfold start_server_serving, Bottle_run, CherryPyServer_run, wsgi_start.
  run_m. destruct o as [|sig|e]; simpl.
  - now rewrite <- !app_assoc.
  - now rewrite <- !app_assoc.
  - destruct e; simpl; now rewrite <- !app_assoc.
Qed.

(** X14. Once argument checking has passed, what is left of [main] goes one
    of two ways. If [get_logger] raises in the constructor of
    [StreamHandler], the exception leaves [main] at once: nothing is
    logged, no server is run and "Exiting." is not printed, the constructor
    standing before the [try]. Otherwise the handler is built and [main] ends
    the same way however the serving ends: "Exiting." is printed last. A
    signal handled during the serving prints its "Caught signal" line and
    raises [SystemExit(0)], which is swallowed, so [main] returns normally;
    only an exception other than [SystemExit] raised by the server leaves
    [main], after "Exiting.". *)
Theorem X14_shutdown (prog : string) (lst : logging_state) (fs : filesystem)
    (merged args : Namespace) (w0 w : world) (o : serving) :
  check_args fs merged w0 = (Ok args, w) ->
  main_serving prog lst fs merged o w0
  = match fst (get_logger prog "StreamHandler" (log_level args) lst) with
    | Raise e => (Raise e, w)
    | Ok _ =>
        (match o with
         | Returned | Signalled _ | Failed (SystemExit _) => Ok tt
         | Failed e => Raise e
         end,
         World (now w)
           (trace w ++ firstn 6 (after_check args)
                    ++ match o with
                       | Signalled sig =>
                           [EvPrint (NL +:+ "Caught signal: " +:+ decimal sig
                                        +:+ " " +:+ NL)]
                       | _ => []
                       end
                    ++ [EvPrint "Exiting."]))
    end.
Proof.
  intros H. unfold main_serving, mbind, M_bind, bind.
  rewrite H, StreamHandler_init_eq.
  destruct (fst (get_logger prog "StreamHandler" (log_level args) lst));
    [|reflexivity].
  unfold try_finally_exiting.
  rewrite start_server_serving_eq. cbn [now trace params].
  destruct o as [|sig|e]; [| |destruct e]; run_m;
    rewrite <- ?app_assoc; reflexivity.
Qed.

Lemma X14_shutdown_witness :
  main_serving "fbstream" (loggers_after_config "fbstream" false)
               sysfs_320_240_16 fb1_auto (Signalled 15) w_start
  = (Ok tt,
     World 0 [EvLog DEBUG "sysfs_path: %s" [VStr "/sys/class/graphics/fb1/"];
              EvOpen "/sys/class/graphics/fb1/virtual_size";
              EvOpen "/sys/class/graphics/fb1/bits_per_pixel";
              EvLog DEBUG "Framebuffer size (h, w, d): (%s, %s, %s)"
                    [VInt 240; VInt 320; VInt 16];
              EvRoute "GET" "/stream";
              EvLog INFO "Initialization done. Signalling readiness." [];
              EvNotify "READY=1";
              EvLog INFO "Starting web server.." [];
              EvRun "0.0.0.0" 8808 (VInt 1) (VInt 4);
              EvPrint (NL +:+ "Caught signal: 15 " +:+ NL);
              EvPrint "Exiting."]).
Proof.
  exact (X14_shutdown "fbstream" (loggers_after_config "fbstream" false)
           sysfs_320_240_16 fb1_auto _ w_start _ (Signalled 15) eq_refl).
Defined.

Lemma main_serving_returned prog lst fs merged w :
  main_serving prog lst fs merged Returned w = main prog lst fs merged w.
Proof.
  unfold main_serving, main, mbind, M_bind, bind.
  destruct (check_args fs merged w) as [[args|e] w1]; [|reflexivity].
  destruct (StreamHandler_init prog lst args w1) as [[self|e] w2]; [|reflexivity].
  unfold try_finally_exiting. rewrite start_server_serving_eq.
  unfold start_server. run_m. now rewrite <- !app_assoc.
Qed.

(** ** Where the configuration comes from *)

Section ConfigProperties.

Variable script_dir : string.
Variable json_dumps : gmap string argval -> string.
Variable isfile : string -> bool.
Variable read_ini : string -> result (gmap string (list (string * string))).

#[local] Arguments path_join : simpl never.

Lemma find_config_eq (paths : list string) (w : world) :
  exists ext,
    find_config isfile paths w
    = (Ok (List.find isfile (map (fun p => path_join p CONFIG_FILE) paths)),
       World (now w) (trace w ++ ext))
    /\ config_only ext.
Proof.
  revert w. induction paths as [|p rest IH]; intros w.
  - exists []. simpl. rewrite app_nil_r. destruct w. split; [reflexivity|constructor].
  - cbn [find_config map List.find]. run_m.
    destruct (isfile (path_join p CONFIG_FILE)).
    + eexists [_; _]. simpl. rewrite <- app_assoc.
      split; [reflexivity|repeat constructor].
    + destruct (IH (World (now w)
                      (trace w ++ [EvLog DEBUG "Looking for config file: %s"
                                         [VStr (path_join p CONFIG_FILE)]])))
        as (ext & -> & Hext).
      simpl. eexists (_ :: ext). rewrite <- app_assoc.
      split; [reflexivity|]. now constructor.
Qed.

Lemma find_first_file (l : list string) :
  match List.find isfile l with
  | Some f => exists pre post,
                l = pre ++ f :: post
                /\ Forall (fun c => isfile c = false) pre /\ isfile f = true
  | None => Forall (fun c => isfile c = false) l
  end.
Proof.
  induction l as [|c l IH]; simpl; [constructor|].
  destruct (isfile c) eqn:E.
  - exists [], l. auto.
  - destruct (List.find isfile l) as [f|].
    + destruct IH as (pre & post & -> & Hpre & Hf).
      exists (c :: pre), post. auto.
    + now constructor.
Qed.

(** What [parse_config_file] returns, by the file it settles on. *)
Lemma parse_config_file_result (st : config_state) (w : world) :
  fst (parse_config_file script_dir json_dumps isfile read_ini st w)
  = match chosen_config script_dir isfile (cs_config_file st) with
    | None => Ok st
    | Some f =>
        if isfile f then
          match read_ini f with
          | Raise e => Raise e
          | Ok ini =>
              match ini !! "general", ini !! "stream" with
              | Some g, Some s =>
                  Ok {| cs_log_level := cs_log_level st;
                        cs_config_file := Some f;
                        cs_defaults :=
                          dict_update (dict_update (cs_defaults st) (dict_of_items g))
                                      (dict_of_items s) |}
              | _, _ => Raise LibraryError
              end
          end
        else Ok {| cs_log_level := cs_log_level st; cs_config_file := Some f;
                   cs_defaults := cs_defaults st |}
    end.
Proof.
  unfold parse_config_file, chosen_config, candidates.
  unfold mbind, M_bind, mret, M_ret, bind, ret, raise, log, emit.
  cbn -[find_config CONFIG_PATHS].
  destruct (cs_config_file st) as [f|] eqn:Ecf; cbn -[find_config CONFIG_PATHS].
  - destruct (isfile f); [|reflexivity].
    unfold ini_items. destruct (read_ini f) as [ini|e]; simpl; [|reflexivity].
    destruct (ini !! "general"); simpl; [|reflexivity].
    destruct (ini !! "stream"); reflexivity.
  - match goal with
    | |- context [find_config isfile ?ps ?w0] =>
        destruct (find_config_eq ps w0) as (ext & -> & _)
    end.
    destruct (List.find isfile _) as [f|]; simpl; [|reflexivity].
    destruct (isfile f); [|reflexivity].
    unfold ini_items. destruct (read_ini f) as [ini|e]; simpl; [|reflexivity].
    destruct (ini !! "general"); simpl; [|reflexivity].
    destruct (ini !! "stream"); reflexivity.
Qed.

(** X15. Without [-c] the configuration file is searched for in a fixed
    order: the script's directory, [/usr/local/etc/], [/etc/], [/conf/]. The
    search returns the first candidate that is a file, every candidate
    before it not being one, and returns nothing only if no candidate is a
    file. *)
Theorem X15_config_search_order (w : world) :
  candidates script_dir
  = [path_join script_dir "fbstream.ini"; "/usr/local/etc/fbstream.ini";
     "/etc/fbstream.ini"; "/conf/fbstream.ini"]
  /\ match fst (find_config isfile (CONFIG_PATHS script_dir) w) with
     | Ok (Some f) =>
         exists pre post,
           candidates script_dir = pre ++ f :: post
           /\ Forall (fun c => isfile c = false) pre /\ isfile f = true
     | Ok None => Forall (fun c => isfile c = false) (candidates script_dir)
     | Raise _ => False
     end.
Proof.
  split; [reflexivity|].
  destruct (find_config_eq (CONFIG_PATHS script_dir) w) as (ext & -> & _).
  cbn [fst]. exact (find_first_file (candidates script_dir)).
Qed.

(** X16. A configuration file named with [-c] that is not a file is an
    error in the log and nothing more: no other location is tried, the
    defaults stay as they were, and the start-up goes on. *)
Theorem X16_named_config_missing (st : config_state) (w : world) (f : string) :
  cs_config_file st = Some f -> isfile f = false ->
  parse_config_file script_dir json_dumps isfile read_ini st w
  = (Ok st,
     World (now w)
           (trace w ++ [EvLog DEBUG "self.args.config_file: %s" [VStr f];
                        EvLog ERROR "Config file (%s) does not exist." [VStr f]])).
Proof.
  intros Hcf Hf. unfold parse_config_file. run_m. rewrite Hcf. simpl.
  rewrite Hf. simpl. rewrite <- app_assoc. destruct st; simpl in *.
  now subst.
Qed.

(** X17. A configuration file that exists but lacks the section [general]
    or the section [stream] makes [parse_config_file] raise the parser's
    error, which nothing handles. *)
Theorem X17_missing_section_raises (st : config_state) (w : world) (f : string)
    (ini : gmap string (list (string * string))) :
  chosen_config script_dir isfile (cs_config_file st) = Some f ->
  isfile f = true -> read_ini f = Ok ini ->
  ini !! "general" = None \/ ini !! "stream" = None ->
  fst (parse_config_file script_dir json_dumps isfile read_ini st w)
  = Raise LibraryError.
Proof.
  intros Hc Hf Hr Hs. rewrite parse_config_file_result, Hc, Hf, Hr.
  destruct Hs as [-> | ->]; [reflexivity|].
  now destruct (ini !! "general").
Qed.

Lemma parse_initial_config_eq (named : option string) (debug : bool) (w : world) :
  exists ext,
    parse_initial_config json_dumps named debug w
    = (Ok {| cs_log_level := if debug then DEBUG else INFO;
             cs_config_file := named; cs_defaults := base_defaults debug |},
       World (now w) (trace w ++ ext)).
Proof. eexists [_]. reflexivity. Qed.

Lemma parse_args_lookup (cli : gmap string string) (debug : bool)
    (defaults : gmap string pyval) (k : string) :
  k <> "debug" ->
  ((AVal ∘ VStr <$> cli)
     ∪ (if debug then {["debug" := ABool true]} else ∅)
     ∪ (AVal <$> defaults)
     ∪ {["debug" := ABool false]}) !! k
  = first_some [AVal ∘ VStr <$> cli !! k; AVal <$> defaults !! k].
Proof.
  intros Hk. rewrite !lookup_union, !lookup_fmap.
  rewrite (lookup_singleton_ne "debug" k) by congruence.
  assert (Hd : (if debug then ({["debug" := ABool true]} : gmap string argval)
                else ∅) !! k = None).
  { destruct debug; [apply lookup_singleton_ne; congruence|apply lookup_empty]. }
  rewrite Hd.
  destruct (cli !! k), (defaults !! k); reflexivity.
Qed.

Lemma configure_result (cli : gmap string string) (debug : bool) (w : world) :
  dom cli ⊆ DECLARED ->
  fst (configure script_dir json_dumps isfile read_ini cli debug w)
  = match fst (parse_config_file script_dir json_dumps isfile read_ini
                 {| cs_log_level := if debug then DEBUG else INFO;
                    cs_config_file := cli !! "config_file";
                    cs_defaults := base_defaults debug |} w) with
    | Ok st1 =>
        Ok ((AVal ∘ VStr <$> cli)
              ∪ (if debug then {["debug" := ABool true]} else ∅)
              ∪ (AVal <$> cs_defaults st1)
              ∪ {["debug" := ABool false]})
    | Raise e => Raise e
    end.
Proof.
  intros Hdom. unfold configure, mbind, M_bind, bind.
  destruct (parse_initial_config_eq (cli !! "config_file") debug w) as (ext & ->).
  rewrite !parse_config_file_result. cbn [cs_config_file cs_defaults cs_log_level].
  match goal with
  | |- context [parse_config_file _ _ _ _ ?st ?w1] =>
      pose proof (parse_config_file_result st w1) as Hres;
      destruct (parse_config_file script_dir json_dumps isfile read_ini st w1)
        as [[st1|e] w2]
  end; cbn [fst cs_config_file cs_defaults cs_log_level] in Hres.
  - rewrite <- Hres. unfold parse_command_line, parse_args, mbind, M_bind, bind.
    rewrite decide_True by assumption. reflexivity.
  - rewrite <- Hres. reflexivity.
Qed.

(** X18. Precedence, with a configuration file: when the file the handler
    settles on exists and has both sections, every attribute of the parsed
    namespace other than [debug] takes its value from the command line if
    the option was given, else from the section [stream], else from the
    section [general], else from the built-in defaults; command line and
    file values are strings. *)
Theorem X18_precedence_with_file (cli : gmap string string) (debug : bool)
    (w : world) (f : string) (ini : gmap string (list (string * string)))
    (g s : list (string * string)) :
  dom cli ⊆ DECLARED ->
  chosen_config script_dir isfile (cli !! "config_file") = Some f ->
  isfile f = true -> read_ini f = Ok ini ->
  ini !! "general" = Some g -> ini !! "stream" = Some s ->
  exists ns,
    fst (configure script_dir json_dumps isfile read_ini cli debug w) = Ok ns
    /\ forall k, k <> "debug" ->
         ns !! k = first_some [AVal ∘ VStr <$> cli !! k;
                               AVal <$> dict_of_items s !! k;
                               AVal <$> dict_of_items g !! k;
                               AVal <$> base_defaults debug !! k].
Proof.
  intros Hdom Hc Hf Hr Hg Hs.
  rewrite configure_result by assumption.
  rewrite parse_config_file_result. cbn [cs_config_file cs_defaults cs_log_level].
  rewrite Hc, Hf, Hr, Hg, Hs. eexists. split; [reflexivity|].
  intros k Hk. rewrite parse_args_lookup by assumption.
  cbn [cs_defaults]. unfold dict_update. rewrite !lookup_union.
  destruct (cli !! k), (dict_of_items s !! k), (dict_of_items g !! k),
    (base_defaults debug !! k); reflexivity.
Qed.

(** X19. Precedence, without a configuration file: when no candidate is a
    file, or the file named with [-c] is not one, every attribute other than
    [debug] takes its value from the command line if the option was given
    and from the built-in defaults otherwise. *)
Theorem X19_precedence_without_file (cli : gmap string string) (debug : bool)
    (w : world) :
  dom cli ⊆ DECLARED ->
  (chosen_config script_dir isfile (cli !! "config_file") = None
   \/ exists f, cli !! "config_file" = Some f /\ isfile f = false) ->
  exists ns,
    fst (configure script_dir json_dumps isfile read_ini cli debug w) = Ok ns
    /\ forall k, k <> "debug" ->
         ns !! k = first_some [AVal ∘ VStr <$> cli !! k;
                               AVal <$> base_defaults debug !! k].
Proof.
  intros Hdom Hc.
  rewrite configure_result by assumption.
  rewrite parse_config_file_result. cbn [cs_config_file cs_defaults cs_log_level].
  destruct Hc as [-> | (f & Hf & Hnf)].
  - eexists. split; [reflexivity|]. intros k Hk.
    now rewrite parse_args_lookup.
  - unfold chosen_config. rewrite Hf, Hnf.
    eexists. split; [reflexivity|]. intros k Hk.
    now rewrite parse_args_lookup.
Qed.

End ConfigProperties.

Lemma cli_example_declared : dom cli_example ⊆ DECLARED.
Proof. apply (bool_decide_unpack _). vm_compute. exact I. Qed.

Lemma cli_named_declared : dom cli_named ⊆ DECLARED.
Proof. apply (bool_decide_unpack _). vm_compute. exact I. Qed.

Lemma X16_named_config_missing_witness :
  fst (parse_config_file "/opt/fbstream" no_json only_etc (fun _ => Ok ini_example)
         {| cs_log_level := INFO; cs_config_file := Some "/tmp/missing.ini";
            cs_defaults := DEFAULTS |} w_start)
  = Ok {| cs_log_level := INFO; cs_config_file := Some "/tmp/missing.ini";
          cs_defaults := DEFAULTS |}.
Proof.
  rewrite (X16_named_config_missing "/opt/fbstream" no_json only_etc
             (fun _ => Ok ini_example)
             {| cs_log_level := INFO; cs_config_file := Some "/tmp/missing.ini";
                cs_defaults := DEFAULTS |}
             w_start "/tmp/missing.ini" eq_refl eq_refl).
  reflexivity.
Defined.

Lemma X17_missing_section_raises_witness :
  fst (parse_config_file "/opt/fbstream" no_json only_etc (fun _ => Ok ini_no_stream)
         {| cs_log_level := INFO; cs_config_file := None;
            cs_defaults := DEFAULTS |} w_start)
  = Raise LibraryError.
Proof.
  apply (X17_missing_section_raises "/opt/fbstream" no_json only_etc
           (fun _ => Ok ini_no_stream)
           {| cs_log_level := INFO; cs_config_file := None;
              cs_defaults := DEFAULTS |}
           w_start "/etc/fbstream.ini" ini_no_stream);
    [reflexivity|reflexivity|reflexivity|right; reflexivity].
Defined.

Lemma X18_precedence_with_file_witness :
  exists ns,
    fst (configure "/opt/fbstream" no_json only_etc (fun _ => Ok ini_example)
                   cli_example false w_start) = Ok ns
    /\ ns !! "width" = Some (AVal (VStr "1024"))
    /\ ns !! "device" = Some (AVal (VStr "fb7"))
    /\ ns !! "port" = Some (AVal (VStr "9000"))
    /\ ns !! "minthreads" = Some (AVal (VInt 1)).
Proof.
  destruct (X18_precedence_with_file "/opt/fbstream" no_json only_etc
              (fun _ => Ok ini_example) cli_example false w_start
              "/etc/fbstream.ini" ini_example
              [("device", "fb0"); ("port", "9000")]
              [("width", "800"); ("device", "fb7")]
              cli_example_declared eq_refl eq_refl eq_refl eq_refl eq_refl)
    as (ns & Hns & Hk).
  exists ns. split; [exact Hns|].
  rewrite !Hk by discriminate. vm_compute. auto.
Defined.

Lemma X19_precedence_without_file_witness :
  exists ns,
    fst (configure "/opt/fbstream" no_json only_etc (fun _ => Ok ini_example)
                   cli_named true w_start) = Ok ns
    /\ ns !! "depth" = Some (AVal (VStr "16"))
    /\ ns !! "device" = Some (AVal (VStr "fb1"))
    /\ ns !! "log_level" = Some (AVal (VInt 10)).
Proof.
  destruct (X19_precedence_without_file "/opt/fbstream" no_json only_etc
              (fun _ => Ok ini_example) cli_named true w_start
              cli_named_declared
              (or_intror (ex_intro _ "/tmp/missing.ini" (conj eq_refl eq_refl))))
    as (ns & Hns & Hk).
  exists ns. split; [exact Hns|].
  rewrite !Hk by discriminate. vm_compute. auto.
Defined.

(** ** Values and files *)

Lemma dict_of_items_strings (items : list (string * string)) :
  forall (acc : gmap string pyval),
    (forall k v, acc !! k = Some v -> exists s, v = VStr s) ->
    forall k v,
      fold_left (fun d kv => <[fst kv := VStr (snd kv)]> d) items acc !! k = Some v ->
      exists s, v = VStr s.
Proof.
  induction items as [|[k0 v0] items IH]; intros acc Hacc k v H; [eauto|].
  simpl in H. apply (IH (<[k0 := VStr v0]> acc)) in H; [exact H|].
  intros k1 v1 H1. destruct (decide (k0 = k1)) as [<-|Hne].
  - rewrite lookup_insert_eq in H1. injection H1 as <-. eauto.
  - rewrite lookup_insert_ne in H1 by assumption. eauto.
Qed.

Lemma dict_of_items_no_int (items : list (string * string)) (k : string) (z : Z) :
  dict_of_items items !! k <> Some (VInt z).
Proof.
  intros H. apply (dict_of_items_strings items ∅) in H as (s & Hs); [discriminate|].
  intros k0 v0 H0. rewrite lookup_empty in H0. discriminate.
Qed.

Lemma option_union_some {A : Type} (a : A) (o : option A) : Some a ∪ o = Some a.
Proof. now destruct o. Qed.

Lemma option_union_none {A : Type} (o : option A) : None ∪ o = o.
Proof. now destruct o. Qed.

Lemma base_defaults_int_keys (debug : bool) (k : string) (z : Z) :
  base_defaults debug !! k = Some (VInt z) ->
  k ∈ ["log_level"; "minthreads"; "maxthreads"].
Proof.
  intros Hb.
  assert (Hd : k = "log_level" \/ DEFAULTS !! k = Some (VInt z)).
  { unfold base_defaults in Hb. destruct debug; [|auto].
    destruct (decide ("log_level" = k)) as [<-|Hn]; [auto|].
    rewrite lookup_insert_ne in Hb by assumption. auto. }
  destruct Hd as [->|Hd]; [rewrite !elem_of_cons; auto|].
  apply elem_of_list_to_map_2 in Hd.
  rewrite !elem_of_cons, elem_of_nil in Hd. unfold AUTO in Hd.
  destruct Hd as [E|[E|[E|[E|[E|[E|[E|[E|[]]]]]]]]]; try discriminate E;
    injection E as -> _; rewrite !elem_of_cons; auto.
Qed.

(** X20. Whatever the command line and the configuration file say, an
    integer in the parsed namespace can only be a built-in default that
    nothing overrode ([log_level], [minthreads], [maxthreads]): every value
    that comes from the command line or from the file is a string, so
    device, width, height and depth always reach [check_args] as strings. *)
Theorem X20_integers_are_builtin_defaults (script_dir : string)
    (json_dumps : gmap string argval -> string) (isfile : string -> bool)
    (read_ini : string -> result (gmap string (list (string * string))))
    (cli : gmap string string) (debug : bool) (w : world)
    (ns : gmap string argval) (k : string) (z : Z) :
  dom cli ⊆ DECLARED ->
  fst (configure script_dir json_dumps isfile read_ini cli debug w) = Ok ns ->
  k <> "debug" ->
  ns !! k = Some (AVal (VInt z)) ->
  cli !! k = None
  /\ base_defaults debug !! k = Some (VInt z)
  /\ k ∈ ["log_level"; "minthreads"; "maxthreads"].
Proof.
  intros Hdom Hcfg Hk Hz.
  rewrite configure_result in Hcfg by assumption.
  rewrite parse_config_file_result in Hcfg.
  cbn [cs_config_file cs_defaults cs_log_level] in Hcfg.
  assert (Hbase : forall d : gmap string pyval,
             first_some [AVal ∘ VStr <$> cli !! k; AVal <$> d !! k]
             = Some (AVal (VInt z)) ->
             cli !! k = None /\ d !! k = Some (VInt z)).
  { intros d. simpl. destruct (cli !! k); simpl; [discriminate|].
    destruct (d !! k); simpl; [|discriminate]. intros E. injection E as ->. auto. }
  pose proof (base_defaults_int_keys debug k z) as Hkeys.
  assert (Hgoal : cli !! k = None /\ base_defaults debug !! k = Some (VInt z)).
  { destruct (chosen_config script_dir isfile (cli !! "config_file")) as [f|].
    - destruct (isfile f).
      + destruct (read_ini f) as [ini|e]; [|discriminate].
        destruct (ini !! "general") as [g|]; [|discriminate].
        destruct (ini !! "stream") as [s|]; [|discriminate].
        injection Hcfg as <-. rewrite parse_args_lookup in Hz by assumption.
        cbn [cs_defaults] in Hz. apply Hbase in Hz as (Hc & Hd).
        split; [exact Hc|]. unfold dict_update in Hd.
        rewrite !lookup_union in Hd.
        destruct (dict_of_items s !! k) as [v|] eqn:Es.
        { rewrite option_union_some in Hd. injection Hd as ->.
          now apply dict_of_items_no_int in Es. }
        rewrite option_union_none in Hd.
        destruct (dict_of_items g !! k) as [v|] eqn:Eg.
        { rewrite option_union_some in Hd. injection Hd as ->.
          now apply dict_of_items_no_int in Eg. }
        now rewrite option_union_none in Hd.
      + injection Hcfg as <-. rewrite parse_args_lookup in Hz by assumption.
        now apply Hbase in Hz.
    - injection Hcfg as <-. rewrite parse_args_lookup in Hz by assumption.
      now apply Hbase in Hz. }
  destruct Hgoal as (H1 & H2). auto.
Qed.

Lemma X20_integers_are_builtin_defaults_witness :
  cli_example !! "minthreads" = None
  /\ base_defaults false !! "minthreads" = Some (VInt 1)
  /\ "minthreads" ∈ ["log_level"; "minthreads"; "maxthreads"].
Proof.
  refine (X20_integers_are_builtin_defaults "/opt/fbstream" no_json only_etc
            (fun _ => Ok ini_example) cli_example false w_start _ "minthreads" 1
            cli_example_declared eq_refl _ _).
  - discriminate.
  - vm_compute. reflexivity.
Defined.

Lemma check_args_world fs args w :
  snd (check_args fs args w) = snd (validate args w)
  \/ snd (check_args fs args w)
     = snd (resolve_geometry fs args (snd (validate args w))).
Proof.
  rewrite check_args_eq. destruct (validate args w) as [[[]|e] w']; auto.
Qed.

Lemma validate_reads args w path :
  reads_of path (trace (snd (validate args w))) = reads_of path (trace w).
Proof.
  rewrite validate_eq. simpl. rewrite reads_of_app.
  destruct (String.eqb (device args) EmptyString);
    [rewrite reads_of_log|change (reads_of path []) with 0%nat]; lia.
Qed.

(** X21. Argument checking touches two files at most, the two descriptors
    of the configured device, each at most once; it opens nothing else, and
    in particular not the device itself. *)
Theorem X21_check_args_opens_descriptors_only (fs : filesystem)
    (args : Namespace) (w : world) (path : string) :
  (reads_of path (trace (snd (check_args fs args w)))
   <= reads_of path (trace w) + 1)%nat
  /\ (path <> virtual_size_file (device args) ->
      path <> bits_per_pixel_file (device args) ->
      reads_of path (trace (snd (check_args fs args w)))
      = reads_of path (trace w)).
Proof.
  pose proof (descriptor_files_differ (device args)) as Hne.
  pose proof (validate_reads args w path) as Hwv.
  assert (Hg := resolve_geometry_reads fs args (snd (validate args w)) path).
  cbv zeta in Hg. rewrite Hwv in Hg.
  assert (Hvs : (reads_of path [EvOpen (virtual_size_file (device args))]
                 + reads_of path [EvOpen (bits_per_pixel_file (device args))] <= 1)%nat).
  { destruct (decide (path = virtual_size_file (device args))) as [->|N1].
    - rewrite reads_of_open_self, reads_of_open_other; [lia|].
      intros E. now apply Hne.
    - rewrite (reads_of_open_other path (virtual_size_file _)) by congruence.
      destruct (decide (path = bits_per_pixel_file (device args))) as [->|N2].
      + rewrite reads_of_open_self. lia.
      + rewrite reads_of_open_other by congruence. lia. }
  destruct (check_args_world fs args w) as [-> | ->].
  - rewrite Hwv. split; [lia|reflexivity].
  - rewrite Hg. split.
    + destruct (is_auto (width args) || is_auto (height args)),
        (fst (resolve_size fs args _)), (is_auto (depth args)); lia.
    + intros N1 N2.
      rewrite (reads_of_open_other path (virtual_size_file _)) by congruence.
      rewrite (reads_of_open_other path (bits_per_pixel_file _)) by congruence.
      destruct (is_auto (width args) || is_auto (height args)),
        (fst (resolve_size fs args _)), (is_auto (depth args)); lia.
Qed.

Lemma X21_check_args_opens_descriptors_only_witness :
  reads_of "/dev/fb1" (trace (snd (check_args sysfs_320_240_16 fb1_auto w_start)))
  = reads_of "/dev/fb1" (trace w_start).
Proof.
  apply (proj2 (X21_check_args_opens_descriptors_only sysfs_320_240_16 fb1_auto
                  w_start "/dev/fb1")); discriminate.
Defined.
